(** * uv-robot: the robot controller of [backend/server.py]

    A shallow embedding of the in-memory robot state, the WebSocket
    connection manager, the command handler [send_robot_command] and the
    simulation loop [robot_simulation], followed by the properties of the
    specification that are settled against them.

    Conventions of the embedding.
    - The module-level singletons [robot_state], [manager] and the Mongo
      collection [db.cleaning_logs] form one explicit [World] that every
      coroutine threads through a state-and-exception monad.  A raised
      exception keeps every assignment made before it (Python has no
      rollback).
    - What a coroutine reads from outside the program (the clock, the random
      draw, the uuid, whether the database accepts a write, whether a socket
      accepts a frame) is an explicit [Env] argument.
    - Granularity: a coroutine suspends at the two [asyncio.sleep] calls of
      the loop and at the two [await db.cleaning_logs.insert_one], and the
      process model lets any other coroutine be served there.  A call of
      [manager.broadcast], with its awaits on the sockets, is taken as one
      step of the coroutine that makes it. *)

From Stdlib Require Import ZArith List String Ascii Bool Lia.
From Stdlib Require Import Sorting.Permutation Sorting.Sorted.
Import ListNotations.

Open Scope string_scope.
Open Scope list_scope.
Open Scope Z_scope.

(** ** Data model *)

(** [datetime] values are counted in microseconds, the resolution of
    Python's [datetime]. *)
Definition datetime := Z.

(** [robot_state.status]: the five string constants the program assigns. *)
Inductive Status : Type :=
| idle | mopping | spraying | uv_disinfecting | paused.

Definition Status_eqb (a b : Status) : bool :=
  match a, b with
  | idle, idle | mopping, mopping | spraying, spraying
  | uv_disinfecting, uv_disinfecting | paused, paused => true
  | _, _ => false
  end.

Module PauseReason.
(** [robot_state.pause_reason], when it is not [None]. *)
Inductive t : Type := obstacle_detected | user_request.
End PauseReason.

(** [class RobotState].  The attribute [connected_clients] is never read or
    written after [__init__] and is left out. *)
Record RobotState : Type := mkRobotState {
  status : Status;
  progress : Z;
  is_cleaning : bool;
  obstacle_detected : bool;
  start_time : option datetime;
  current_mode : option string;
  pause_reason : option PauseReason.t
}.

(** [RobotState.__init__] *)
Definition RobotState_init : RobotState :=
  {| status := idle; progress := 0; is_cleaning := false;
     obstacle_detected := false; start_time := None; current_mode := None;
     pause_reason := None |}.

(** In-place attribute assignments, one per attribute. *)
Definition set_status (v : Status) (s : RobotState) : RobotState :=
  mkRobotState v (progress s) (is_cleaning s) (obstacle_detected s)
               (start_time s) (current_mode s) (pause_reason s).
Definition set_progress (v : Z) (s : RobotState) : RobotState :=
  mkRobotState (status s) v (is_cleaning s) (obstacle_detected s)
               (start_time s) (current_mode s) (pause_reason s).
Definition set_is_cleaning (v : bool) (s : RobotState) : RobotState :=
  mkRobotState (status s) (progress s) v (obstacle_detected s)
               (start_time s) (current_mode s) (pause_reason s).
Definition set_obstacle_detected (v : bool) (s : RobotState) : RobotState :=
  mkRobotState (status s) (progress s) (is_cleaning s) v
               (start_time s) (current_mode s) (pause_reason s).
Definition set_start_time (v : option datetime) (s : RobotState) : RobotState :=
  mkRobotState (status s) (progress s) (is_cleaning s) (obstacle_detected s)
               v (current_mode s) (pause_reason s).
Definition set_current_mode (v : option string) (s : RobotState) : RobotState :=
  mkRobotState (status s) (progress s) (is_cleaning s) (obstacle_detected s)
               (start_time s) v (pause_reason s).
Definition set_pause_reason (v : option PauseReason.t) (s : RobotState)
  : RobotState :=
  mkRobotState (status s) (progress s) (is_cleaning s) (obstacle_detected s)
               (start_time s) (current_mode s) v.

Module StateDict.
(** The dictionary built by [RobotState.to_dict]: a copy of the seven
    attributes, detached from later assignments.  The ISO-8601 rendering of
    [start_time] is kept as the timestamp it renders. *)
Record t : Type := mk {
  status : Status;
  progress : Z;
  is_cleaning : bool;
  obstacle_detected : bool;
  start_time : option datetime;
  current_mode : option string;
  pause_reason : option PauseReason.t
}.
End StateDict.

(** [RobotState.to_dict] *)
Definition to_dict (s : RobotState) : StateDict.t :=
  {| StateDict.status := status s;
     StateDict.progress := progress s;
     StateDict.is_cleaning := is_cleaning s;
     StateDict.obstacle_detected := obstacle_detected s;
     StateDict.start_time :=
       match start_time s with Some t => Some t | None => None end;
     StateDict.current_mode := current_mode s;
     StateDict.pause_reason := pause_reason s |}.

Inductive LogStatus : Type := completed | interrupted.

Module CleaningLog.
(** [class CleaningLog(BaseModel)] *)
Record t : Type := mk {
  id : string;
  start_time : datetime;
  end_time : option datetime;
  duration : option Z;
  mode : string;
  status : LogStatus;
  progress : Z
}.
End CleaningLog.

(** [class RobotCommand(BaseModel)]: [command] is any string and [mode] is
    [Optional[str]], so an explicit null is a well-formed request. *)
Record RobotCommand : Type := mkRobotCommand {
  command : string;
  mode : option string
}.

(** The default of the [mode] field. *)
Definition default_mode : option string := Some "full_clean".

(** The [type] entry of a broadcast dictionary. *)
Inductive MessageType : Type :=
| status_update | alert | info | cleaning_complete.

(** A dictionary handed to [manager.broadcast]. *)
Record Message : Type := mkMessage {
  msg_type : MessageType;
  msg_message : option string;
  msg_robot_state : StateDict.t;
  msg_duration : option Z
}.

(** The dictionary a command returns: [robot_state] is present on success
    only. *)
Record Response : Type := mkResponse {
  success : bool;
  message : string;
  resp_robot_state : option StateDict.t
}.

(** A WebSocket object, known by its identity. *)
Definition WebSocket := nat.

(** One call of [connection.send_text] and whether it returned. *)
Record SendAttempt : Type := mkSendAttempt {
  sent_to : WebSocket;
  sent_msg : Message;
  sent_ok : bool
}.

(** The process-wide objects.  [send_log] and [broadcast_log] are history
    variables: every [send_text] call and every [manager.broadcast] call, in
    order.  The program never reads them. *)
Record World : Type := mkWorld {
  robot_state : RobotState;
  cleaning_logs : list CleaningLog.t;
  active_connections : list WebSocket;
  send_log : list SendAttempt;
  broadcast_log : list Message
}.

(** The state of the process at startup. *)
Definition World_init : World :=
  mkWorld RobotState_init [] [] [] [].

(** What one coroutine step reads from outside the program. *)
Record Env : Type := mkEnv {
  utcnow : datetime;              (* datetime.utcnow() *)
  random_below_tenth : bool;      (* random.random() < 0.1 *)
  uuid4 : string;                 (* str(uuid.uuid4()) *)
  insert_one_ok : bool;           (* db.cleaning_logs.insert_one returns *)
  send_text_ok : WebSocket -> Message -> bool (* send_text returns *)
}.

(** The exceptions the modelled code can raise. *)
Inductive Exn : Type :=
| TypeError          (* datetime - None *)
| AttributeError     (* None.replace *)
| ValidationError    (* CleaningLog(mode=None) *)
| StorageError.      (* insert_one failed *)

Inductive Result (A : Type) : Type :=
| Returned (a : A)
| Raised (e : Exn).
Arguments Returned {A} a.
Arguments Raised {A} e.

(** ** The state-and-exception monad of the coroutines *)

Definition M (A : Type) : Type := World -> World * Result A.

Definition ret {A} (a : A) : M A := fun w => (w, Returned a).

Definition raise {A} (e : Exn) : M A := fun w => (w, Raised e).

Definition bind {A B} (m : M A) (k : A -> M B) : M B :=
  fun w =>
    match m w with
    | (w', Returned a) => k a w'
    | (w', Raised e) => (w', Raised e)
    end.

Declare Scope robot_scope.
Delimit Scope robot_scope with robot.
Notation "x <- m ;; k" := (bind m (fun x => k))
  (at level 61, m at next level, right associativity) : robot_scope.
Notation "m ;; k" := (bind m (fun _ => k))
  (at level 61, right associativity) : robot_scope.
Open Scope robot_scope.

(** Reading the singleton [robot_state]. *)
Definition get_robot : M RobotState := fun w => (w, Returned (robot_state w)).

(** The world with the attributes of [robot_state] replaced. *)
Definition put_robot (rs : RobotState) (w : World) : World :=
  mkWorld rs (cleaning_logs w) (active_connections w)
          (send_log w) (broadcast_log w).

(** An attribute assignment on [robot_state]. *)
Definition assign (f : RobotState -> RobotState) : M unit :=
  fun w => (put_robot (f (robot_state w)) w, Returned tt).

(** The state and the outcome of a run. *)
Definition exec {A} (m : M A) (w : World) : World := fst (m w).
Definition outcome {A} (m : M A) (w : World) : Result A := snd (m w).

(** ** ConnectionManager *)

(** [x in l] on a list of sockets. *)
Definition list_contains (x : WebSocket) (l : list WebSocket) : bool :=
  existsb (Nat.eqb x) l.

(** [l.remove(x)]: drops the first occurrence.  It is only called under the
    membership test of [disconnect], where Python's [ValueError] cannot
    arise. *)
Fixpoint list_remove (x : WebSocket) (l : list WebSocket) : list WebSocket :=
  match l with
  | [] => []
  | y :: rest => if Nat.eqb y x then rest else y :: list_remove x rest
  end.

(** [ConnectionManager.disconnect] on the list it mutates. *)
Definition disconnect (websocket : WebSocket) (conns : list WebSocket)
  : list WebSocket :=
  if list_contains websocket conns then list_remove websocket conns
  else conns.

(** [ConnectionManager.connect] after [websocket.accept()]. *)
Definition connect (websocket : WebSocket) : M unit :=
  fun w =>
    (mkWorld (robot_state w) (cleaning_logs w)
             (active_connections w ++ [websocket])
             (send_log w) (broadcast_log w),
     Returned tt).

(** The first loop of [broadcast]: one [send_text] per connection, in list
    order; the bare [except:] catches every failure and appends the
    connection to [disconnected].  Returns the calls made and
    [disconnected]. *)
Fixpoint send_each (ok : WebSocket -> bool) (m : Message)
         (conns : list WebSocket) : list SendAttempt * list WebSocket :=
  match conns with
  | [] => ([], [])
  | connection :: rest =>
      let r := send_each ok m rest in
      (mkSendAttempt connection m (ok connection) :: fst r,
       if ok connection then snd r else connection :: snd r)
  end.

(** The second loop of [broadcast]: [self.disconnect(conn)] for each
    collected connection. *)
Definition disconnect_all (disconnected conns : list WebSocket)
  : list WebSocket :=
  fold_left (fun acc conn => disconnect conn acc) disconnected conns.

(** [ConnectionManager.broadcast] *)
Definition broadcast (e : Env) (m : Message) : M unit :=
  fun w =>
    let r := send_each (fun c => send_text_ok e c m) m (active_connections w) in
    (mkWorld (robot_state w) (cleaning_logs w)
             (disconnect_all (snd r) (active_connections w))
             (send_log w ++ fst r)
             (broadcast_log w ++ [m]),
     Returned tt).

(** ** Helpers of the coroutines *)

(** [s.replace(old, new)] for one-character [old] and [new]. *)
Fixpoint str_replace (old new : ascii) (s : string) : string :=
  match s with
  | EmptyString => EmptyString
  | String c rest =>
      String (if Ascii.eqb c old then new else c) (str_replace old new rest)
  end.

(** [int((end_time - start_time).total_seconds())]: the whole seconds of the
    span, truncated toward zero; [TypeError] when [start_time] is [None].
    (The float that [total_seconds] returns carries the microseconds exactly
    for every span below 2^32 seconds, so the truncation is the integer
    quotient.) *)
Definition elapsed_seconds (end_time : datetime) (start : option datetime)
  : M Z :=
  match start with
  | Some t0 => ret (Z.quot (end_time - t0) 1000000)
  | None => raise TypeError
  end.

(** The constructor call [CleaningLog(...)]: the field [mode] is declared
    [str], so pydantic rejects [None]. *)
Definition new_CleaningLog (e : Env) (start : option datetime)
           (end_time : datetime) (duration : Z) (m : option string)
           (st : LogStatus) (p : Z) : M CleaningLog.t :=
  match start, m with
  | Some t0, Some md =>
      ret (CleaningLog.mk (uuid4 e) t0 (Some end_time) (Some duration) md st p)
  | _, _ => raise ValidationError
  end.

(** [await db.cleaning_logs.insert_one(log.dict())] *)
Definition insert_one (e : Env) (log : CleaningLog.t) : M unit :=
  fun w =>
    if insert_one_ok e then
      (mkWorld (robot_state w) (cleaning_logs w ++ [log])
               (active_connections w) (send_log w) (broadcast_log w),
       Returned tt)
    else (w, Raised StorageError).

(** The status derived from the progress in the simulation loop. *)
Definition status_for_progress (p : Z) : Status :=
  if p <? 30 then mopping
  else if p <? 60 then spraying
  else if p <? 90 then uv_disinfecting
  else mopping.

(** The f-string of the start message; [command.mode.replace] raises
    [AttributeError] when the request carried a null mode. *)
Definition start_message (m : option string) : M string :=
  match m with
  | Some md =>
      ret ("Starting " ++ str_replace "_"%char " "%char md ++ " cycle...")%string
  | None => raise AttributeError
  end.

(** [manager.broadcast] of a dictionary whose [robot_state] entry is
    [robot_state.to_dict()] at the time of the call. *)
Definition broadcast_state (e : Env) (ty : MessageType) (text : option string)
           (d : option Z) : M unit :=
  rs <- get_robot ;;
  broadcast e (mkMessage ty text (to_dict rs) d).

(** The successful return of a command. *)
Definition accepted (text : string) : M (option Response) :=
  rs <- get_robot ;;
  ret (Some (mkResponse true text (Some (to_dict rs)))).

(** The refusing return of a command. *)
Definition rejected (text : string) : M (option Response) :=
  ret (Some (mkResponse false text None)).

(** ** The command handler *)

(** [send_robot_command].  The result is [None] when the function falls off
    its [if]/[elif] chain, which Python returns as [None]. *)
Definition send_robot_command (e : Env) (c : RobotCommand)
  : M (option Response) :=
  if String.eqb (command c) "start" then
    rs <- get_robot ;;
    if negb (is_cleaning rs) then
      assign (set_is_cleaning true) ;;
      assign (set_status mopping) ;;
      assign (set_progress 0) ;;
      assign (set_start_time (Some (utcnow e))) ;;
      assign (set_current_mode (mode c)) ;;
      text <- start_message (mode c) ;;
      broadcast_state e info (Some text) None ;;
      accepted "Cleaning started"
    else rejected "Robot is already cleaning"
  else if String.eqb (command c) "stop" then
    rs <- get_robot ;;
    if is_cleaning rs then
      assign (set_is_cleaning false) ;;
      assign (set_status idle) ;;
      rs <- get_robot ;;
      duration <- elapsed_seconds (utcnow e) (start_time rs) ;;
      log <- new_CleaningLog e (start_time rs) (utcnow e) duration
                             (current_mode rs) interrupted (progress rs) ;;
      insert_one e log ;;
      assign (set_progress 0) ;;
      assign (set_start_time None) ;;
      assign (set_current_mode None) ;;
      broadcast_state e info (Some "Cleaning stopped by user") None ;;
      accepted "Cleaning stopped"
    else rejected "Robot is not cleaning"
  else if String.eqb (command c) "pause" then
    rs <- get_robot ;;
    if is_cleaning rs && negb (Status_eqb (status rs) paused) then
      assign (set_status paused) ;;
      assign (set_pause_reason (Some PauseReason.user_request)) ;;
      broadcast_state e info (Some "Cleaning paused by user") None ;;
      accepted "Cleaning paused"
    else rejected "Cannot pause robot"
  else if String.eqb (command c) "resume" then
    rs <- get_robot ;;
    if is_cleaning rs && Status_eqb (status rs) paused then
      assign (set_status mopping) ;;
      assign (set_pause_reason None) ;;
      broadcast_state e info (Some "Cleaning resumed") None ;;
      accepted "Cleaning resumed"
    else rejected "Cannot resume robot"
  else ret None.

(** ** The simulation loop *)

(** The [else] branch of [if robot_state.progress < 100]: the session is
    closed and logged. *)
Definition cleaning_complete_branch (e : Env) : M unit :=
  assign (set_is_cleaning false) ;;
  assign (set_status idle) ;;
  assign (set_progress 100) ;;
  rs <- get_robot ;;
  duration <- elapsed_seconds (utcnow e) (start_time rs) ;;
  log <- new_CleaningLog e (start_time rs) (utcnow e) duration
                         (current_mode rs) completed 100 ;;
  insert_one e log ;;
  broadcast_state e cleaning_complete
                  (Some "Cleaning cycle completed successfully!")
                  (Some duration).

(** One iteration of [while True], from the loop head to the first sleep it
    reaches.  The result is [true] when that sleep is the
    [asyncio.sleep(3)] after the obstacle alert, and [false] when it is the
    [asyncio.sleep(5)] closing the iteration. *)
Definition tick_before_sleep (e : Env) : M bool :=
  rs <- get_robot ;;
  if is_cleaning rs && negb (Status_eqb (status rs) paused) then
    if progress rs <? 100 then
      assign (fun s => set_progress (progress s + 2) s) ;;
      assign (fun s => set_status (status_for_progress (progress s)) s) ;;
      rs <- get_robot ;;
      if random_below_tenth e && negb (obstacle_detected rs) then
        assign (set_obstacle_detected true) ;;
        assign (set_status paused) ;;
        assign (set_pause_reason (Some PauseReason.obstacle_detected)) ;;
        broadcast_state e alert
                        (Some "Obstacle detected! Robot paused for safety.")
                        None ;;
        ret true
      else
        broadcast_state e status_update None None ;;
        ret false
    else
      cleaning_complete_branch e ;;
      ret false
  else ret false.

(** The rest of the iteration once [asyncio.sleep(3)] has returned, up to
    the [asyncio.sleep(5)]. *)
Definition tick_after_sleep (e : Env) : M unit :=
  assign (set_obstacle_detected false) ;;
  assign (set_pause_reason None) ;;
  broadcast_state e info (Some "Path clear. Resuming cleaning...") None ;;
  broadcast_state e status_update None None.

(** One whole iteration with nothing else scheduled during the grace wait. *)
Definition tick (e : Env) : M unit :=
  waiting <- tick_before_sleep e ;;
  if waiting then tick_after_sleep e else ret tt.

(** [robot_simulation]: the first [length envs] iterations of the loop.  An
    exception leaves the loop, so the remaining iterations never run. *)
Fixpoint robot_simulation (envs : list Env) : M unit :=
  match envs with
  | [] => ret tt
  | e :: rest => tick e ;; robot_simulation rest
  end.

(** ** The process: requests interleaved with the simulation task *)

(** The coroutines suspend at [asyncio.sleep] and at
    [await db.cleaning_logs.insert_one]; while one is suspended the event
    loop serves the others.  The two coroutines that write to the log are
    therefore also given in two segments, before and after that await. *)

(** How far a request handler got: to its [return], or to the [await] of
    the write of the record it has built. *)
Inductive HandlerStop : Type :=
| handler_returned (r : option Response)
| handler_at_write (log : CleaningLog.t).

(** [send_robot_command] from its first line to its [return] or, in the
    [stop] branch of a cleaning robot, to the
    [await db.cleaning_logs.insert_one]: the two assignments, the duration
    and the [CleaningLog] come before that await. *)
Definition send_robot_command_until_write (e : Env) (c : RobotCommand)
  : M HandlerStop :=
  rs <- get_robot ;;
  if String.eqb (command c) "stop" && is_cleaning rs then
    assign (set_is_cleaning false) ;;
    assign (set_status idle) ;;
    rs <- get_robot ;;
    duration <- elapsed_seconds (utcnow e) (start_time rs) ;;
    log <- new_CleaningLog e (start_time rs) (utcnow e) duration
                           (current_mode rs) interrupted (progress rs) ;;
    ret (handler_at_write log)
  else
    r <- send_robot_command e c ;;
    ret (handler_returned r).

(** The [stop] branch from the return of
    [await db.cleaning_logs.insert_one] to the [return] of the handler. *)
Definition send_robot_command_after_write (e : Env) (log : CleaningLog.t)
  : M (option Response) :=
  insert_one e log ;;
  assign (set_progress 0) ;;
  assign (set_start_time None) ;;
  assign (set_current_mode None) ;;
  broadcast_state e info (Some "Cleaning stopped by user") None ;;
  accepted "Cleaning stopped".

(** Where an iteration of the loop suspends first: at a sleep (the grace
    wait when [grace] is true), or at the write of the record it built, with
    the duration it computed. *)
Inductive Suspension : Type :=
| at_sleep (grace : bool)
| at_write (log : CleaningLog.t) (duration : Z).

(** The [else] branch of [if robot_state.progress < 100] up to its
    [await db.cleaning_logs.insert_one]. *)
Definition cleaning_complete_until_write (e : Env)
  : M (CleaningLog.t * Z) :=
  assign (set_is_cleaning false) ;;
  assign (set_status idle) ;;
  assign (set_progress 100) ;;
  rs <- get_robot ;;
  duration <- elapsed_seconds (utcnow e) (start_time rs) ;;
  log <- new_CleaningLog e (start_time rs) (utcnow e) duration
                         (current_mode rs) completed 100 ;;
  ret (log, duration).

(** The same branch from the return of that await to the
    [asyncio.sleep(5)]. *)
Definition cleaning_complete_after_write (e : Env) (log : CleaningLog.t)
           (duration : Z) : M unit :=
  insert_one e log ;;
  broadcast_state e cleaning_complete
                  (Some "Cleaning cycle completed successfully!")
                  (Some duration).

(** One iteration of [while True] from the loop head to its first
    suspension: the closing branch stops at its write, every other path is
    [tick_before_sleep]. *)
Definition tick_until_suspended (e : Env) : M Suspension :=
  rs <- get_robot ;;
  if is_cleaning rs && negb (Status_eqb (status rs) paused)
     && negb (progress rs <? 100)
  then
    p <- cleaning_complete_until_write e ;;
    ret (at_write (fst p) (snd p))
  else
    grace <- tick_before_sleep e ;;
    ret (at_sleep grace).

(** Where the task created by [startup_event] stands. *)
Inductive SimTask : Type :=
| at_loop_head      (* suspended in asyncio.sleep(5), or not yet started *)
| in_grace_wait     (* suspended in asyncio.sleep(3) *)
| in_write (log : CleaningLog.t) (duration : Z)
                    (* suspended in await insert_one of the closing branch *)
| task_finished (e : Exn).  (* left the loop with an exception *)

(** The process: the world, the simulation task, and the [stop] handlers
    suspended at their write, each with the record it is writing, oldest
    first. *)
Record System : Type := mkProcess {
  world : World;
  sim : SimTask;
  suspended : list CleaningLog.t
}.

(** A process in which no handler is suspended. *)
Definition mkSystem (w : World) (t : SimTask) : System := mkProcess w t [].

Definition System_init : System := mkSystem World_init at_loop_head.

(** What the event loop runs next.
    - [Request]: one HTTP request from its first line to its [return], with
      nothing else served during its awaits.
    - [Wake]: the simulation task from where it is suspended to its next
      [asyncio.sleep], with nothing else served during its write.
    - [RequestUntilWrite]: one HTTP request until it returns or suspends at
      its write.
    - [WriteReturns i]: the write of the [i]-th suspended handler returns
      and that handler runs to its [return].
    - [WakeUntilWrite]: the simulation task from where it is suspended to
      its next suspension, a sleep or its write. *)
Inductive Event : Type :=
| Request (e : Env) (c : RobotCommand)
| Wake (e : Env)
| RequestUntilWrite (e : Env) (c : RobotCommand)
| WriteReturns (e : Env) (i : nat)
| WakeUntilWrite (e : Env).

(** The list without its [i]-th element. *)
Fixpoint remove_nth (i : nat) (l : list CleaningLog.t) : list CleaningLog.t :=
  match l, i with
  | [], _ => []
  | _ :: rest, O => rest
  | x :: rest, S j => x :: remove_nth j rest
  end.

(** The simulation task resumed from a suspension inside an iteration. *)
Definition resume_iteration (e : Env) (s : System) : System :=
  match sim s with
  | at_loop_head => s
  | in_grace_wait =>
      match tick_after_sleep e (world s) with
      | (w, Returned _) => mkProcess w at_loop_head (suspended s)
      | (w, Raised x) => mkProcess w (task_finished x) (suspended s)
      end
  | in_write log duration =>
      match cleaning_complete_after_write e log duration (world s) with
      | (w, Returned _) => mkProcess w at_loop_head (suspended s)
      | (w, Raised x) => mkProcess w (task_finished x) (suspended s)
      end
  | task_finished _ => s
  end.

(** One scheduling step.  An exception in a request handler is answered by
    the framework with status 500 and the process goes on; an exception in
    the simulation task ends that task. *)
Definition step (s : System) (ev : Event) : System :=
  match ev with
  | Request e c =>
      mkProcess (exec (send_robot_command e c) (world s)) (sim s)
                (suspended s)
  | Wake e =>
      match sim s with
      | at_loop_head =>
          match tick_before_sleep e (world s) with
          | (w, Returned true) => mkProcess w in_grace_wait (suspended s)
          | (w, Returned false) => mkProcess w at_loop_head (suspended s)
          | (w, Raised x) => mkProcess w (task_finished x) (suspended s)
          end
      | _ => resume_iteration e s
      end
  | RequestUntilWrite e c =>
      match send_robot_command_until_write e c (world s) with
      | (w, Returned (handler_at_write log)) =>
          mkProcess w (sim s) (suspended s ++ [log])
      | (w, _) => mkProcess w (sim s) (suspended s)
      end
  | WriteReturns e i =>
      match nth_error (suspended s) i with
      | Some log =>
          mkProcess (exec (send_robot_command_after_write e log) (world s))
                    (sim s) (remove_nth i (suspended s))
      | None => s
      end
  | WakeUntilWrite e =>
      match sim s with
      | at_loop_head =>
          match tick_until_suspended e (world s) with
          | (w, Returned (at_sleep true)) =>
              mkProcess w in_grace_wait (suspended s)
          | (w, Returned (at_sleep false)) =>
              mkProcess w at_loop_head (suspended s)
          | (w, Returned (at_write log duration)) =>
              mkProcess w (in_write log duration) (suspended s)
          | (w, Raised x) => mkProcess w (task_finished x) (suspended s)
          end
      | _ => resume_iteration e s
      end
  end.

Definition run (evs : list Event) (s : System) : System :=
  fold_left step evs s.

(** ** The WebSocket endpoint and the read-only routes *)

(** What a failing [send_text] raises inside [websocket_endpoint]: the
    handler catches [WebSocketDisconnect] and nothing else. *)
Inductive SendFailure : Type :=
| raises_WebSocketDisconnect
| raises_other.

(** Where one run of [websocket_endpoint] stands. *)
Inductive Endpoint : Type :=
| receiving          (* inside the [while True] loop of [receive_text] *)
| returned           (* left through [except WebSocketDisconnect] *)
| propagated.        (* left with an exception the handler does not catch *)

(** The dictionary sent on connect and by the status broadcasts. *)
Definition status_update_of (rs : RobotState) : Message :=
  mkMessage status_update None (to_dict rs) None.

(** [websocket_endpoint] from its first line to the first [receive_text]:
    [manager.connect], then the initial [send_text] inside the [try]. *)
Definition websocket_endpoint_open (e : Env) (failure : SendFailure)
           (websocket : WebSocket) (w : World) : World * Endpoint :=
  let w1 := fst (connect websocket w) in
  let m := status_update_of (robot_state w1) in
  let sent := send_text_ok e websocket m in
  let w2 := mkWorld (robot_state w1) (cleaning_logs w1)
                    (active_connections w1)
                    (send_log w1 ++ [mkSendAttempt websocket m sent])
                    (broadcast_log w1) in
  if sent then (w2, receiving)
  else
    match failure with
    | raises_WebSocketDisconnect =>
        (mkWorld (robot_state w2) (cleaning_logs w2)
                 (disconnect websocket (active_connections w2))
                 (send_log w2) (broadcast_log w2),
         returned)
    | raises_other => (w2, propagated)
    end.

(** [websocket_endpoint] when a [receive_text] of its loop raises
    [WebSocketDisconnect]: the handler calls [manager.disconnect]. *)
Definition websocket_endpoint_disconnected (websocket : WebSocket) (w : World)
  : World :=
  mkWorld (robot_state w) (cleaning_logs w)
          (disconnect websocket (active_connections w))
          (send_log w) (broadcast_log w).

(** [get_robot_status]: the value of the [robot_state] entry. *)
Definition get_robot_status : M StateDict.t :=
  rs <- get_robot ;;
  ret (to_dict rs).

(** [.sort("start_time", -1)]: insertion into a list that is descending in
    [start_time].  The database leaves the order among equal keys open; here
    a record goes behind the records with the same key. *)
Fixpoint insert_desc (x : CleaningLog.t) (l : list CleaningLog.t)
  : list CleaningLog.t :=
  match l with
  | [] => [x]
  | y :: rest =>
      if CleaningLog.start_time y <? CleaningLog.start_time x
      then x :: l
      else y :: insert_desc x rest
  end.

Definition sort_desc (l : list CleaningLog.t) : list CleaningLog.t :=
  fold_right insert_desc [] l.

(** [get_cleaning_logs]: [find().sort("start_time", -1).to_list(100)], each
    document read back as a [CleaningLog].  [find_ok] tells whether the
    database answers. *)
Definition get_cleaning_logs (find_ok : bool) : M (list CleaningLog.t) :=
  fun w =>
    if find_ok
    then (w, Returned (firstn 100 (sort_desc (cleaning_logs w))))
    else (w, Raised StorageError).

(** ** Vocabulary of the statements *)

(** The robot state after an iteration that advances the progress. *)
Definition advanced (rs : RobotState) : RobotState :=
  mkRobotState (status_for_progress (progress rs + 2)) (progress rs + 2)
               (is_cleaning rs) (obstacle_detected rs) (start_time rs)
               (current_mode rs) (pause_reason rs).

(** The robot state after the branch that closes the session. *)
Definition closed (rs : RobotState) : RobotState :=
  mkRobotState idle 100 false (obstacle_detected rs) (start_time rs)
               (current_mode rs) (pause_reason rs).

(** The robot state after an iteration whose obstacle draw fires, once the
    grace wait is over. *)
Definition obstacle_cleared (rs : RobotState) : RobotState :=
  mkRobotState paused (progress rs + 2) (is_cleaning rs) false
               (start_time rs) (current_mode rs) None.

(** Whether a broadcast dictionary has type [cleaning_complete]. *)
Definition is_cleaning_complete (m : Message) : bool :=
  match msg_type m with cleaning_complete => true | _ => false end.

(** The robot state [k] calm iterations after a fresh start. *)
Definition calm_state (k : Z) (rs : RobotState) : Prop :=
  if k <=? 50
  then is_cleaning rs = true /\ progress rs = 2 * k
       /\ status rs = status_for_progress (2 * k)
  else is_cleaning rs = false /\ progress rs = 100 /\ status rs = idle.

(** [pause_reason] is set exactly when [status] is paused. *)
Definition pause_reason_iff_paused (rs : RobotState) : Prop :=
  pause_reason rs <> None <-> status rs = paused.

(** [current_mode] and [start_time] are set exactly when [is_cleaning]. *)
Definition session_fields_iff_cleaning (rs : RobotState) : Prop :=
  (current_mode rs <> None /\ start_time rs <> None) <-> is_cleaning rs = true.

(** A cleaning robot has its start time and its mode. *)
Definition session_open (rs : RobotState) : Prop :=
  is_cleaning rs = true -> start_time rs <> None /\ current_mode rs <> None.

(** The request, if the event is one, carries a mode. *)
Definition mode_given (ev : Event) : Prop :=
  match ev with
  | Request _ c | RequestUntilWrite _ c => mode c <> None
  | Wake _ | WriteReturns _ _ | WakeUntilWrite _ => True
  end.

(** The frames addressed to one socket, in the order of the calls. *)
Definition frames_to (ws : WebSocket) (log : list SendAttempt)
  : list SendAttempt :=
  filter (fun a => Nat.eqb (sent_to a) ws) log.

(** Progress is an even percentage between 0 and 100, and the robot is
    cleaning exactly when its status is not idle. *)
Definition state_ok (rs : RobotState) : Prop :=
  0 <= progress rs <= 100
  /\ (exists k, progress rs = k + k)
  /\ (is_cleaning rs = true <-> status rs <> idle).

(** [obstacle_detected] is set only while the simulation task is inside its
    grace wait. *)
Definition flag_only_in_grace_wait (s : System) : Prop :=
  obstacle_detected (robot_state (world s)) = true -> sim s = in_grace_wait.

(** A record as the program writes it: closed, with the whole seconds from
    its start to its end as duration, a progress between 0 and 100, and
    progress 100 when its status is [completed]. *)
Definition log_ok (r : CleaningLog.t) : Prop :=
  (exists t, CleaningLog.end_time r = Some t
             /\ CleaningLog.duration r
                = Some (Z.quot (t - CleaningLog.start_time r) 1000000))
  /\ 0 <= CleaningLog.progress r <= 100
  /\ (CleaningLog.status r = completed -> CleaningLog.progress r = 100).

(** 1 while a session is open, 0 otherwise. *)
Definition open_sessions (rs : RobotState) : nat :=
  if is_cleaning rs then 1%nat else 0%nat.

(** The number of [start] requests among the events. *)
Fixpoint count_starts (evs : list Event) : nat :=
  match evs with
  | [] => 0%nat
  | Request _ c :: rest | RequestUntilWrite _ c :: rest =>
      ((if String.eqb (command c) "start" then 1 else 0)
       + count_starts rest)%nat
  | Wake _ :: rest | WriteReturns _ _ :: rest | WakeUntilWrite _ :: rest =>
      count_starts rest
  end.

(** The robot state carried by the latest broadcast; before any broadcast,
    the state every subscriber was sent on connect to a fresh process. *)
Definition last_broadcast_state (w : World) : StateDict.t :=
  match rev (broadcast_log w) with
  | m :: _ => msg_robot_state m
  | [] => to_dict RobotState_init
  end.

(** The event runs with a database that accepts writes and, if it is a
    request, carries a mode. *)
Definition event_succeeds (ev : Event) : Prop :=
  match ev with
  | Request e c | RequestUntilWrite e c =>
      mode c <> None /\ insert_one_ok e = true
  | Wake e | WriteReturns e _ | WakeUntilWrite e => insert_one_ok e = true
  end.

(** [a] started no earlier than [b]: the order of [get_cleaning_logs]. *)
Definition newer_or_equal (a b : CleaningLog.t) : Prop :=
  CleaningLog.start_time b <= CleaningLog.start_time a.

(** The event is not a [start] or [stop] request, nor the second segment
    of a [stop] request. *)
Definition keeps_session (ev : Event) : Prop :=
  match ev with
  | Request _ c | RequestUntilWrite _ c =>
      command c <> "start" /\ command c <> "stop"
  | WriteReturns _ _ => False
  | Wake _ | WakeUntilWrite _ => True
  end.

(** Every record a suspended coroutine is about to write is a record as the
    program writes it. *)
Definition pending_ok (s : System) : Prop :=
  Forall log_ok (suspended s)
  /\ match sim s with
     | in_write log _ => log_ok log
     | _ => True
     end.

(** The number of coroutines suspended at a write. *)
Definition pending_writes (s : System) : nat :=
  (List.length (suspended s)
   + match sim s with
     | in_write _ _ => 1
     | _ => 0
     end)%nat.

(** The event does not suspend a [stop] handler at its write. *)
Definition stop_uninterrupted (ev : Event) : Prop :=
  match ev with
  | RequestUntilWrite _ c => command c <> "stop"
  | _ => True
  end.

(** The simulation task is suspended at its write. *)
Definition writing (s : System) : bool :=
  match sim s with
  | in_write _ _ => true
  | _ => false
  end.

(** ** Concrete environments, requests and runs used by the examples *)

(** Nothing fails and the obstacle draw does not fire. *)
Definition env_calm (now : datetime) : Env :=
  mkEnv now false "0a1b" true (fun _ _ => true).

(** The obstacle draw fires. *)
Definition env_obstacle (now : datetime) : Env :=
  mkEnv now true "0a1b" true (fun _ _ => true).

(** The database refuses the write. *)
Definition env_db_down (now : datetime) : Env :=
  mkEnv now false "0a1b" false (fun _ _ => true).

(** Socket 2 is broken, the other sockets are fine. *)
Definition env_socket2_broken (now : datetime) : Env :=
  mkEnv now false "0a1b" true (fun c _ => negb (Nat.eqb c 2)).

(** The four requests, with the default mode. *)
Definition cmd_start : RobotCommand := mkRobotCommand "start" default_mode.
Definition cmd_stop : RobotCommand := mkRobotCommand "stop" default_mode.
Definition cmd_pause : RobotCommand := mkRobotCommand "pause" default_mode.
Definition cmd_resume : RobotCommand := mkRobotCommand "resume" default_mode.

(** A world with three subscribers. *)
Definition world_three_subscribers : World :=
  mkWorld RobotState_init [] [1%nat; 2%nat; 3%nat] [] [].

(** A status update carrying the startup state. *)
Definition status_message : Message :=
  mkMessage status_update None (to_dict RobotState_init) None.

(** The world after an accepted [start] at time 0. *)
Definition world_started : World :=
  exec (send_robot_command (env_calm 0) cmd_start) World_init.

(** The process after [start] and a loop iteration whose obstacle draw
    fires: the simulation task is inside its grace wait. *)
Definition system_in_grace_wait : System :=
  run [Request (env_calm 0) cmd_start; Wake (env_obstacle 5000000)]
      System_init.

(** The times of [n] iterations, five seconds apart, with nothing failing
    and no obstacle. *)
Definition calm_envs (n : nat) : list Env :=
  map (fun k => env_calm (5000000 * Z.of_nat k)) (seq 1 n).

(** The world after [start] and 49 calm iterations, and after 50. *)
Definition world_at_98 : World :=
  exec (robot_simulation (calm_envs 49)) world_started.
Definition world_at_100 : World :=
  exec (robot_simulation (calm_envs 50)) world_started.

(** The process after [start] and 50 calm iterations: progress is 100 and
    the next iteration will close the session. *)
Definition system_at_100 : System :=
  run (Request (env_calm 0) cmd_start :: map Wake (calm_envs 50)) System_init.

(** * Properties *)

(** Unfolds the monad and the small helpers of the coroutines. *)
Ltac unfold_coroutine :=
  unfold accepted, rejected, broadcast_state, cleaning_complete_branch,
    elapsed_seconds, new_CleaningLog, insert_one, start_message,
    broadcast, assign, get_robot, bind, ret, raise, exec, outcome.

(** ** The broadcaster *)

Section Broadcast.

Variable ok : WebSocket -> bool.
Variable m : Message.

Lemma send_each_calls (conns : list WebSocket) :
  fst (send_each ok m conns) = map (fun c => mkSendAttempt c m (ok c)) conns.
Proof.
  induction conns as [|c rest IH]; simpl; [reflexivity|].
  now rewrite IH.
Qed.

Lemma send_each_disconnected (conns : list WebSocket) :
  snd (send_each ok m conns) = filter (fun c => negb (ok c)) conns.
Proof.
  induction conns as [|c rest IH]; simpl; [reflexivity|].
  destruct (ok c); simpl; now rewrite IH.
Qed.

Lemma disconnect_other (d c : WebSocket) (l : list WebSocket) :
  d <> c -> disconnect d (c :: l) = c :: disconnect d l.
Proof.
  intros Hne. unfold disconnect, list_contains. simpl.
  destruct (Nat.eqb_spec d c) as [->|_]; [contradiction|].
  destruct (Nat.eqb_spec c d) as [->|_]; [contradiction|]. simpl.
  now destruct (existsb (Nat.eqb d) l).
Qed.

Lemma disconnect_head (c : WebSocket) (l : list WebSocket) :
  disconnect c (c :: l) = l.
Proof.
  unfold disconnect, list_contains. simpl.
  now rewrite Nat.eqb_refl.
Qed.

Lemma disconnect_all_keeps (c : WebSocket) (ds l : list WebSocket) :
  ~ In c ds -> disconnect_all ds (c :: l) = c :: disconnect_all ds l.
Proof.
  revert l. induction ds as [|d ds IH]; intros l Hnot; simpl; [reflexivity|].
  rewrite disconnect_other by (intros ->; apply Hnot; now left).
  apply IH. intros Hin. apply Hnot. now right.
Qed.

Lemma disconnect_all_failed (conns : list WebSocket) :
  disconnect_all (filter (fun c => negb (ok c)) conns) conns = filter ok conns.
Proof.
  induction conns as [|c rest IH]; simpl; [reflexivity|].
  destruct (ok c) eqn:Hc; simpl.
  - rewrite disconnect_all_keeps; [now rewrite IH|].
    intros Hin. apply filter_In in Hin. destruct Hin as [_ Hin].
    now rewrite Hc in Hin.
  - rewrite disconnect_head. exact IH.
Qed.

End Broadcast.

(** C9.  [broadcast] always returns normally.  It calls [send_text] once for
    every connection of [active_connections], in order, with the same
    message; the connections whose call fails are exactly the ones removed
    from [active_connections], every other connection has received the
    message and stays subscribed; the robot state and the session log are
    untouched. *)
Theorem broadcast_evicts_exactly_failed (e : Env) (m : Message) (w : World) :
  let w' := exec (broadcast e m) w in
  let ok := fun c => send_text_ok e c m in
  outcome (broadcast e m) w = Returned tt
  /\ send_log w'
     = send_log w
       ++ map (fun c => mkSendAttempt c m (ok c)) (active_connections w)
  /\ active_connections w' = filter ok (active_connections w)
  /\ (forall c, In c (active_connections w') <->
                In c (active_connections w) /\ ok c = true)
  /\ (forall c, In c (active_connections w) -> ok c = true ->
                In (mkSendAttempt c m true) (send_log w'))
  /\ robot_state w' = robot_state w
  /\ cleaning_logs w' = cleaning_logs w.
Proof.
  intros w' ok. subst w'. unfold_coroutine. simpl.
  rewrite send_each_calls, send_each_disconnected, disconnect_all_failed.
  split; [reflexivity|]. split; [reflexivity|]. split; [reflexivity|].
  split; [|split; [|split; reflexivity]].
  - intros c. rewrite filter_In. reflexivity.
  - intros c Hin Hok. apply in_or_app. right.
    apply in_map_iff. exists c. split; [|exact Hin].
    unfold ok in Hok. now rewrite Hok.
Qed.

Lemma broadcast_evicts_exactly_failed_witness :
  active_connections
    (exec (broadcast (env_socket2_broken 0) status_message)
          world_three_subscribers) = [1%nat; 3%nat]
  /\ In (mkSendAttempt 3%nat status_message true)
        (send_log (exec (broadcast (env_socket2_broken 0) status_message)
                        world_three_subscribers)).
Proof.
  pose proof (broadcast_evicts_exactly_failed
                (env_socket2_broken 0) status_message
                world_three_subscribers) as H.
  cbv zeta in H.
  destruct H as (_ & _ & Hconns & _ & Hrecv & _).
  split.
  - rewrite Hconns. reflexivity.
  - apply Hrecv; [simpl; auto | reflexivity].
Defined.

(** ** Commands that are refused or unknown *)

(** C10.  A command whose [command] string is none of [start], [stop],
    [pause], [resume] falls through every branch: the handler returns
    [None], and the robot state, the log, the subscribers and the broadcast
    history are all exactly as before. *)
Theorem unknown_command_returns_none (e : Env) (c : RobotCommand) (w : World) :
  command c <> "start" -> command c <> "stop" ->
  command c <> "pause" -> command c <> "resume" ->
  send_robot_command e c w = (w, Returned None).
Proof.
  intros H1 H2 H3 H4. unfold send_robot_command.
  apply String.eqb_neq in H1, H2, H3, H4.
  now rewrite H1, H2, H3, H4.
Qed.

Lemma unknown_command_returns_none_witness :
  send_robot_command (env_calm 0) (mkRobotCommand "invalid_command" default_mode)
                     World_init
  = (World_init, Returned None).
Proof.
  apply (unknown_command_returns_none (env_calm 0)
           (mkRobotCommand "invalid_command" default_mode) World_init);
    simpl; discriminate.
Defined.

(** C5.  Whatever the current state: [start] while [is_cleaning] holds,
    [stop] while it does not, [pause] unless cleaning and not paused, and
    [resume] unless cleaning and paused, each return normally with
    [success = False] and leave the whole world unchanged; and [stop],
    [pause] and [resume] never turn [is_cleaning] from false to true. *)
Theorem invalid_transition_rejected (e : Env) (m : option string) (w : World) :
  (is_cleaning (robot_state w) = true ->
   send_robot_command e (mkRobotCommand "start" m) w
   = (w, Returned (Some (mkResponse false "Robot is already cleaning" None))))
  /\ (is_cleaning (robot_state w) = false ->
      send_robot_command e (mkRobotCommand "stop" m) w
      = (w, Returned (Some (mkResponse false "Robot is not cleaning" None))))
  /\ (is_cleaning (robot_state w)
        && negb (Status_eqb (status (robot_state w)) paused) = false ->
      send_robot_command e (mkRobotCommand "pause" m) w
      = (w, Returned (Some (mkResponse false "Cannot pause robot" None))))
  /\ (is_cleaning (robot_state w)
        && Status_eqb (status (robot_state w)) paused = false ->
      send_robot_command e (mkRobotCommand "resume" m) w
      = (w, Returned (Some (mkResponse false "Cannot resume robot" None))))
  /\ (forall k, In k ["stop"; "pause"; "resume"] ->
      is_cleaning (robot_state w) = false ->
      is_cleaning
        (robot_state (exec (send_robot_command e (mkRobotCommand k m)) w))
      = false).
Proof.
  assert (Hstop : is_cleaning (robot_state w) = false ->
      send_robot_command e (mkRobotCommand "stop" m) w
      = (w, Returned (Some (mkResponse false "Robot is not cleaning" None)))).
  { intros H. unfold send_robot_command. simpl. unfold_coroutine.
    now rewrite H. }
  assert (Hpause : is_cleaning (robot_state w)
        && negb (Status_eqb (status (robot_state w)) paused) = false ->
      send_robot_command e (mkRobotCommand "pause" m) w
      = (w, Returned (Some (mkResponse false "Cannot pause robot" None)))).
  { intros H. unfold send_robot_command. simpl. unfold_coroutine.
    now rewrite H. }
  assert (Hresume : is_cleaning (robot_state w)
        && Status_eqb (status (robot_state w)) paused = false ->
      send_robot_command e (mkRobotCommand "resume" m) w
      = (w, Returned (Some (mkResponse false "Cannot resume robot" None)))).
  { intros H. unfold send_robot_command. simpl. unfold_coroutine.
    now rewrite H. }
  split; [|split; [exact Hstop|split; [exact Hpause|split; [exact Hresume|]]]].
  - intros H. unfold send_robot_command. simpl. unfold_coroutine.
    now rewrite H.
  - intros k Hk Hidle. unfold exec.
    destruct Hk as [<-|[<-|[<-|[]]]].
    + now rewrite Hstop.
    + rewrite Hpause; [exact Hidle|]. now rewrite Hidle.
    + rewrite Hresume; [exact Hidle|]. now rewrite Hidle.
Qed.

Lemma invalid_transition_rejected_witness :
  send_robot_command (env_calm 0) cmd_resume World_init
  = (World_init, Returned (Some (mkResponse false "Cannot resume robot" None)))
  /\ is_cleaning
       (robot_state (exec (send_robot_command (env_calm 0) cmd_stop) World_init))
     = false.
Proof.
  destruct (invalid_transition_rejected (env_calm 0) default_mode World_init)
    as (_ & _ & _ & Hresume & Hkeep).
  split.
  - apply Hresume. reflexivity.
  - apply (Hkeep "stop"); [simpl; auto | reflexivity].
Defined.

(** ** Cleaning sessions carry their start time and mode *)

(** Breaks the conditionals and option matches of an unfolded coroutine. *)
Ltac split_branches :=
  repeat match goal with
         | |- context [if ?b then _ else _] => destruct b eqn:?; cbn
         | |- context [match ?o with Some _ => _ | None => _ end] =>
             destruct o eqn:?; cbn
         end.

Lemma send_robot_command_session_open (e : Env) (c : RobotCommand) (w : World) :
  mode c <> None ->
  session_open (robot_state w) ->
  session_open (robot_state (exec (send_robot_command e c) w)).
Proof.
  unfold session_open. intros Hmode Hinv.
  unfold send_robot_command. unfold_coroutine. cbn.
  split_branches; cbn; try exact Hinv;
    try (intros Hf; congruence);
    intros _; split; try discriminate; try exact Hmode.
Qed.

Lemma tick_before_sleep_session_open (e : Env) (w : World) :
  session_open (robot_state w) ->
  session_open (robot_state (fst (tick_before_sleep e w))).
Proof.
  unfold session_open. intros Hinv.
  unfold tick_before_sleep. unfold_coroutine. cbn.
  split_branches; cbn; try exact Hinv;
    try (intros Hf; congruence).
Qed.

Lemma tick_after_sleep_session_open (e : Env) (w : World) :
  session_open (robot_state w) ->
  session_open (robot_state (fst (tick_after_sleep e w))).
Proof.
  unfold session_open. intros Hinv.
  unfold tick_after_sleep. unfold_coroutine. cbn. exact Hinv.
Qed.

(** ** Stop and Resume *)

(** C7, as the code has it.  [stop] during a session whose start time and
    mode are set, with a database that accepts the write and nothing else
    served while the handler is suspended: exactly one record is appended to the
    log, with status [interrupted], the session's start time and mode, the
    whole seconds from the start time to now as duration, and the progress
    held at the moment of the stop; afterwards [is_cleaning] is false,
    [status] is idle, [progress] is 0 and [start_time] and [current_mode]
    are [None]; the handler broadcasts one [info] message and returns
    [success = True]. *)
Theorem stop_logs_interrupted_session
        (e : Env) (m : option string) (w : World) (t0 : datetime) (md : string) :
  is_cleaning (robot_state w) = true ->
  start_time (robot_state w) = Some t0 ->
  current_mode (robot_state w) = Some md ->
  insert_one_ok e = true ->
  let w' := exec (send_robot_command e (mkRobotCommand "stop" m)) w in
  cleaning_logs w'
  = cleaning_logs w
    ++ [CleaningLog.mk (uuid4 e) t0 (Some (utcnow e))
                       (Some (Z.quot (utcnow e - t0) 1000000)) md
                       interrupted (progress (robot_state w))]
  /\ robot_state w'
     = mkRobotState idle 0 false (obstacle_detected (robot_state w))
                    None None (pause_reason (robot_state w))
  /\ broadcast_log w'
     = broadcast_log w
       ++ [mkMessage info (Some "Cleaning stopped by user")
                     (to_dict (robot_state w')) None]
  /\ outcome (send_robot_command e (mkRobotCommand "stop" m)) w
     = Returned (Some (mkResponse true "Cleaning stopped"
                                  (Some (to_dict (robot_state w'))))).
Proof.
  intros Hc Ht Hm Hdb w'. subst w'.
  unfold send_robot_command. simpl. unfold_coroutine. simpl.
  rewrite Hc. simpl. rewrite Ht. simpl. rewrite Hm, Hdb. simpl.
  repeat split; reflexivity.
Qed.

Lemma stop_logs_interrupted_session_witness :
  cleaning_logs
    (exec (send_robot_command (env_calm 7500000) cmd_stop) world_started)
  = [CleaningLog.mk "0a1b" 0 (Some 7500000) (Some 7) "full_clean"
                    interrupted 0]
  /\ robot_state
       (exec (send_robot_command (env_calm 7500000) cmd_stop) world_started)
     = RobotState_init.
Proof.
  destruct (stop_logs_interrupted_session
              (env_calm 7500000) default_mode world_started 0 "full_clean"
              eq_refl eq_refl eq_refl eq_refl) as (Hlog & Hst & _).
  split; [exact Hlog | exact Hst].
Defined.

(** C7 fails as stated.  (a) After a [start] whose mode is null the robot
    is cleaning; the [stop] that follows raises [ValidationError], writes no
    record and does not clear the start time.  (b) A [start] served while a
    [stop] is suspended at its
    write is accepted; when that [stop] has returned, one record has been
    written but the robot is cleaning, in status mopping, without start
    time or mode, and the next [stop] raises [TypeError] and writes
    nothing. *)
Lemma stop_of_cleaning_robot_without_record :
  let w_null := fst (send_robot_command (env_calm 0)
                                        (mkRobotCommand "start" None)
                                        World_init) in
  let r := send_robot_command (env_calm 7500000) cmd_stop w_null in
  let s := run [Request (env_calm 0) cmd_start;
                RequestUntilWrite (env_calm 1000000) cmd_stop;
                Request (env_calm 2000000) cmd_start;
                WriteReturns (env_calm 3000000) 0] System_init in
  let r' := send_robot_command (env_calm 4000000) cmd_stop (world s) in
  is_cleaning (robot_state w_null) = true
  /\ snd r = Raised ValidationError
  /\ cleaning_logs (fst r) = []
  /\ start_time (robot_state (fst r)) = Some 0
  /\ suspended s = []
  /\ robot_state (world s)
     = mkRobotState mopping 0 true false None None None
  /\ cleaning_logs (world s)
     = [CleaningLog.mk "0a1b" 0 (Some 1000000) (Some 1) "full_clean"
                       interrupted 0]
  /\ snd r' = Raised TypeError
  /\ cleaning_logs (fst r') = cleaning_logs (world s).
Proof.
  vm_compute. repeat split; reflexivity.
Qed.

(** C6, as the code has it.  [resume] while cleaning and paused sets
    [status] to mopping whatever the phase before the pause, sets
    [pause_reason] to [None] and returns [success = True]; every other
    attribute, [obstacle_detected] among them, keeps its value.  The flag
    [obstacle_detected] is cleared by the simulation loop when its grace
    wait ends. *)
Theorem resume_sets_mopping_keeps_obstacle
        (e : Env) (m : option string) (w : World) :
  is_cleaning (robot_state w) = true ->
  status (robot_state w) = paused ->
  let w' := exec (send_robot_command e (mkRobotCommand "resume" m)) w in
  robot_state w'
  = mkRobotState mopping (progress (robot_state w)) true
                 (obstacle_detected (robot_state w))
                 (start_time (robot_state w)) (current_mode (robot_state w))
                 None
  /\ outcome (send_robot_command e (mkRobotCommand "resume" m)) w
     = Returned (Some (mkResponse true "Cleaning resumed"
                                  (Some (to_dict (robot_state w')))))
  /\ (forall e' w0,
        obstacle_detected (robot_state (exec (tick_after_sleep e') w0))
        = false).
Proof.
  intros Hc Hp w'. subst w'.
  unfold send_robot_command. simpl. unfold_coroutine. simpl.
  rewrite Hc, Hp. simpl.
  unfold set_pause_reason, set_status. simpl. rewrite Hc.
  repeat split; reflexivity.
Qed.

Lemma resume_sets_mopping_keeps_obstacle_witness :
  robot_state
    (exec (send_robot_command (env_calm 6000000) cmd_resume)
          (world system_in_grace_wait))
  = mkRobotState mopping 2 true true (Some 0) (Some "full_clean") None.
Proof.
  destruct (resume_sets_mopping_keeps_obstacle
              (env_calm 6000000) default_mode (world system_in_grace_wait)
              eq_refl eq_refl) as (Hst & _).
  exact Hst.
Defined.

(** C6 fails as stated: a [resume] that arrives during the grace wait of an
    obstacle pause is accepted (the robot is cleaning, paused, with
    [pause_reason = obstacle_detected]) and returns with
    [obstacle_detected] still true. *)
Lemma resume_leaves_obstacle_flag_set :
  let w := world system_in_grace_wait in
  let w' := exec (send_robot_command (env_calm 6000000) cmd_resume) w in
  sim system_in_grace_wait = in_grace_wait
  /\ is_cleaning (robot_state w) = true
  /\ status (robot_state w) = paused
  /\ pause_reason (robot_state w) = Some PauseReason.obstacle_detected
  /\ obstacle_detected (robot_state w) = true
  /\ outcome (send_robot_command (env_calm 6000000) cmd_resume) w
     = Returned (Some (mkResponse true "Cleaning resumed"
                                  (Some (to_dict (robot_state w')))))
  /\ status (robot_state w') = mopping
  /\ pause_reason (robot_state w') = None
  /\ obstacle_detected (robot_state w') = true.
Proof.
  vm_compute. repeat split; reflexivity.
Qed.

(** ** One iteration of the simulation loop *)

(** Unfolds the coroutines down to the calls of [broadcast]. *)
Ltac unfold_to_broadcast :=
  unfold tick, tick_before_sleep, tick_after_sleep, accepted, rejected,
    broadcast_state, cleaning_complete_branch, elapsed_seconds,
    new_CleaningLog, insert_one, start_message, assign, get_robot, bind,
    ret, raise.

Lemma broadcast_returns (e : Env) (m : Message) (w : World) :
  snd (broadcast e m w) = Returned tt.
Proof. reflexivity. Qed.

Lemma broadcast_robot_state (e : Env) (m : Message) (w : World) :
  robot_state (fst (broadcast e m w)) = robot_state w.
Proof. reflexivity. Qed.

Lemma broadcast_cleaning_logs (e : Env) (m : Message) (w : World) :
  cleaning_logs (fst (broadcast e m w)) = cleaning_logs w.
Proof. reflexivity. Qed.

Lemma broadcast_broadcast_log (e : Env) (m : Message) (w : World) :
  broadcast_log (fst (broadcast e m w)) = broadcast_log w ++ [m].
Proof. reflexivity. Qed.

Lemma status_for_progress_not_paused (p : Z) :
  Status_eqb (status_for_progress p) paused = false.
Proof.
  unfold status_for_progress.
  destruct (p <? 30); [reflexivity|].
  destruct (p <? 60); [reflexivity|].
  destruct (p <? 90); reflexivity.
Qed.

(** An iteration does nothing unless the robot is cleaning and not paused. *)
Lemma tick_inactive (e : Env) (w : World) :
  is_cleaning (robot_state w)
    && negb (Status_eqb (status (robot_state w)) paused) = false ->
  tick e w = (w, Returned tt).
Proof.
  intros H. unfold_to_broadcast. now rewrite H.
Qed.

(** Below 100 and without an obstacle, an iteration adds 2 to the progress,
    derives the status and broadcasts one status update. *)
Lemma tick_advance (e : Env) (w : World) :
  is_cleaning (robot_state w) = true ->
  Status_eqb (status (robot_state w)) paused = false ->
  progress (robot_state w) < 100 ->
  random_below_tenth e && negb (obstacle_detected (robot_state w)) = false ->
  tick e w
  = broadcast e (mkMessage status_update None
                           (to_dict (advanced (robot_state w))) None)
              (put_robot (advanced (robot_state w)) w).
Proof.
  intros Hc Hp Hlt Hroll. unfold_to_broadcast. simpl.
  rewrite Hc, Hp. simpl.
  apply Z.ltb_lt in Hlt. rewrite Hlt. simpl. rewrite Hroll. simpl.
  reflexivity.
Qed.

(** At 100 or above, an iteration closes the session: the three assignments
    come first and stay whatever happens next. *)
Lemma tick_close_robot_state (e : Env) (w : World) :
  is_cleaning (robot_state w) = true ->
  Status_eqb (status (robot_state w)) paused = false ->
  100 <= progress (robot_state w) ->
  robot_state (fst (tick e w)) = closed (robot_state w).
Proof.
  intros Hc Hp Hge. unfold_to_broadcast. simpl.
  rewrite Hc, Hp. simpl.
  apply Z.ltb_ge in Hge. rewrite Hge. simpl.
  destruct (start_time (robot_state w)); simpl; [|reflexivity].
  destruct (current_mode (robot_state w)); simpl; [|reflexivity].
  destruct (insert_one_ok e); reflexivity.
Qed.

(** The same iteration when the session has its start time and mode and the
    database accepts the write. *)
Lemma tick_close_logged (e : Env) (w : World) (t0 : datetime) (md : string) :
  is_cleaning (robot_state w) = true ->
  Status_eqb (status (robot_state w)) paused = false ->
  100 <= progress (robot_state w) ->
  start_time (robot_state w) = Some t0 ->
  current_mode (robot_state w) = Some md ->
  insert_one_ok e = true ->
  tick e w
  = broadcast e
      (mkMessage cleaning_complete
                 (Some "Cleaning cycle completed successfully!")
                 (to_dict (closed (robot_state w)))
                 (Some (Z.quot (utcnow e - t0) 1000000)))
      (mkWorld (closed (robot_state w))
               (cleaning_logs w
                ++ [CleaningLog.mk (uuid4 e) t0 (Some (utcnow e))
                      (Some (Z.quot (utcnow e - t0) 1000000)) md
                      completed 100])
               (active_connections w) (send_log w) (broadcast_log w)).
Proof.
  intros Hc Hp Hge Ht Hm Hdb. unfold_to_broadcast. simpl.
  rewrite Hc, Hp. simpl.
  apply Z.ltb_ge in Hge. rewrite Hge. simpl.
  rewrite Ht. simpl. rewrite Hm, Hdb. simpl.
  reflexivity.
Qed.

(** The same iteration when the database refuses the write: the exception
    leaves the iteration after the three assignments. *)
Lemma tick_close_storage_error
      (e : Env) (w : World) (t0 : datetime) (md : string) :
  is_cleaning (robot_state w) = true ->
  Status_eqb (status (robot_state w)) paused = false ->
  100 <= progress (robot_state w) ->
  start_time (robot_state w) = Some t0 ->
  current_mode (robot_state w) = Some md ->
  insert_one_ok e = false ->
  tick_before_sleep e w
  = (put_robot (closed (robot_state w)) w, Raised StorageError).
Proof.
  intros Hc Hp Hge Ht Hm Hdb. unfold_to_broadcast. simpl.
  rewrite Hc, Hp. simpl.
  apply Z.ltb_ge in Hge. rewrite Hge. simpl.
  rewrite Ht. simpl. rewrite Hm, Hdb. simpl.
  reflexivity.
Qed.

Lemma Status_eqb_paused (st : Status) :
  st <> paused -> Status_eqb st paused = false.
Proof. destruct st; intros H; try reflexivity. now elim H. Qed.

(** Below 100 with the obstacle draw firing, an iteration pauses, waits,
    clears the flag and the reason, and broadcasts alert, info and status
    update in that order. *)
Lemma tick_obstacle (e : Env) (w : World) :
  is_cleaning (robot_state w) = true ->
  Status_eqb (status (robot_state w)) paused = false ->
  progress (robot_state w) < 100 ->
  random_below_tenth e && negb (obstacle_detected (robot_state w)) = true ->
  let w' := fst (tick e w) in
  snd (tick e w) = Returned tt
  /\ robot_state w' = obstacle_cleared (robot_state w)
  /\ cleaning_logs w' = cleaning_logs w
  /\ map msg_type (broadcast_log w')
     = map msg_type (broadcast_log w) ++ [alert; info; status_update].
Proof.
  intros Hc Hp Hlt Hroll. unfold_to_broadcast. simpl.
  rewrite Hc, Hp. simpl.
  apply Z.ltb_lt in Hlt. rewrite Hlt. simpl. rewrite Hroll. simpl.
  repeat split.
  rewrite !map_app, <- !app_assoc. reflexivity.
Qed.

(** ** Session completion *)

(** C3, as the code has it.  During a session whose start time and mode are
    set, with a database that accepts writes: an iteration entered with
    progress at 100 or above returns normally, appends exactly one record
    with status [completed], progress 100 and the whole seconds from the
    start time to now as duration, leaves [is_cleaning] false, [status] idle
    and [progress] 100, and broadcasts one [cleaning_complete] message with
    that duration; an iteration entered below 100 (the one on which the
    progress reaches 100 included) appends no record, keeps [is_cleaning]
    true and broadcasts no [cleaning_complete] message. *)
Theorem completion_on_iteration_entered_at_100
        (e : Env) (w : World) (t0 : datetime) (md : string) :
  is_cleaning (robot_state w) = true ->
  status (robot_state w) <> paused ->
  start_time (robot_state w) = Some t0 ->
  current_mode (robot_state w) = Some md ->
  insert_one_ok e = true ->
  let w' := exec (tick e) w in
  let duration := Z.quot (utcnow e - t0) 1000000 in
  (100 <= progress (robot_state w) ->
   outcome (tick e) w = Returned tt
   /\ cleaning_logs w'
      = cleaning_logs w
        ++ [CleaningLog.mk (uuid4 e) t0 (Some (utcnow e)) (Some duration) md
                           completed 100]
   /\ is_cleaning (robot_state w') = false
   /\ status (robot_state w') = idle
   /\ progress (robot_state w') = 100
   /\ broadcast_log w'
      = broadcast_log w
        ++ [mkMessage cleaning_complete
                      (Some "Cleaning cycle completed successfully!")
                      (to_dict (robot_state w')) (Some duration)])
  /\ (progress (robot_state w) < 100 ->
      outcome (tick e) w = Returned tt
      /\ progress (robot_state w') = progress (robot_state w) + 2
      /\ cleaning_logs w' = cleaning_logs w
      /\ is_cleaning (robot_state w') = true
      /\ exists msgs,
          broadcast_log w' = broadcast_log w ++ msgs
          /\ forallb (fun m => negb (is_cleaning_complete m)) msgs = true).
Proof.
  intros Hc Hp Ht Hm Hdb w' duration. subst w' duration.
  apply Status_eqb_paused in Hp. unfold exec, outcome. split.
  - intros Hge. rewrite (tick_close_logged e w t0 md Hc Hp Hge Ht Hm Hdb).
    repeat split.
  - intros Hlt.
    destruct (random_below_tenth e && negb (obstacle_detected (robot_state w)))
      eqn:Hroll.
    + unfold_to_broadcast. simpl. rewrite Hc, Hp. simpl.
      apply Z.ltb_lt in Hlt. rewrite Hlt. simpl. rewrite Hroll. simpl.
      repeat split; [exact Hc|].
      eexists. rewrite <- !app_assoc. split; reflexivity.
    + rewrite (tick_advance e w Hc Hp Hlt Hroll).
      repeat split; [exact Hc|].
      eexists. split; reflexivity.
Qed.

Lemma completion_on_iteration_entered_at_100_witness :
  cleaning_logs (exec (tick (env_calm 255000000)) world_at_100)
  = [CleaningLog.mk "0a1b" 0 (Some 255000000) (Some 255) "full_clean"
                    completed 100]
  /\ cleaning_logs (exec (tick (env_calm 250000000)) world_at_98) = [].
Proof.
  assert (Hnp : mopping <> paused) by discriminate.
  split.
  - destruct (completion_on_iteration_entered_at_100
                (env_calm 255000000) world_at_100 0 "full_clean"
                eq_refl Hnp eq_refl eq_refl eq_refl) as [Hdone _].
    destruct Hdone as (_ & Hlog & _); [vm_compute; discriminate|].
    exact Hlog.
  - destruct (completion_on_iteration_entered_at_100
                (env_calm 250000000) world_at_98 0 "full_clean"
                eq_refl Hnp eq_refl eq_refl eq_refl) as [_ Hgo].
    destruct Hgo as (_ & _ & Hlog & _); [reflexivity|].
    exact Hlog.
Defined.

(** C3 fails as stated: on the iteration during which the progress reaches
    100 (from 98) the session is not finalized: no record is written, the
    robot is still cleaning, and no completion message is broadcast. *)
Lemma no_completion_on_iteration_reaching_100 :
  let w := world_at_98 in
  let w' := exec (tick (env_calm 250000000)) w in
  progress (robot_state w) = 98
  /\ progress (robot_state w') = 100
  /\ cleaning_logs w' = []
  /\ is_cleaning (robot_state w') = true
  /\ status (robot_state w') = mopping
  /\ existsb is_cleaning_complete (broadcast_log w') = false.
Proof.
  vm_compute. repeat split; reflexivity.
Qed.

(** ** Progress over calm iterations *)

Lemma calm_state_closed (j j' : Z) (rs : RobotState) :
  50 < j -> 50 < j' -> calm_state j rs -> calm_state j' rs.
Proof.
  unfold calm_state. intros Hj Hj'.
  destruct (Z.leb_spec j 50); [lia|].
  destruct (Z.leb_spec j' 50); [lia|]. trivial.
Qed.

Lemma tick_calm_state (e : Env) (w : World) (k : Z) :
  0 <= k ->
  calm_state k (robot_state w) ->
  random_below_tenth e = false ->
  calm_state (k + 1) (robot_state (fst (tick e w)))
  /\ (snd (tick e w) = Returned tt \/ k = 50).
Proof.
  intros Hk Hinv Hroll. unfold calm_state in *.
  destruct (Z.leb_spec k 50) as [Hle|Hgt].
  - destruct Hinv as (Hc & Hpr & Hst).
    assert (Hp : Status_eqb (status (robot_state w)) paused = false)
      by (rewrite Hst; apply status_for_progress_not_paused).
    destruct (Z.eq_dec k 50) as [->|Hne].
    + split; [|now right].
      rewrite tick_close_robot_state by (trivial; lia). simpl.
      repeat split.
    + split; [|left].
      * rewrite tick_advance by (trivial; try lia; now rewrite Hroll).
        rewrite broadcast_robot_state.
        unfold put_robot, advanced.
        cbn [robot_state progress status is_cleaning].
        destruct (Z.leb_spec (k + 1) 50); [|lia].
        rewrite Hpr. replace (2 * (k + 1)) with (2 * k + 2) by lia.
        repeat split. exact Hc.
      * rewrite tick_advance by (trivial; try lia; now rewrite Hroll).
        apply broadcast_returns.
  - destruct Hinv as (Hc & Hpr & Hst).
    rewrite tick_inactive by (now rewrite Hc). simpl.
    destruct (Z.leb_spec (k + 1) 50); [lia|]. now auto.
Qed.

Lemma robot_simulation_calm_state (envs : list Env) :
  forall (w : World) (k : Z),
    0 <= k ->
    calm_state k (robot_state w) ->
    Forall (fun e => random_below_tenth e = false) envs ->
    calm_state (k + Z.of_nat (List.length envs))
               (robot_state (fst (robot_simulation envs w))).
Proof.
  induction envs as [|e rest IH]; intros w k Hk Hinv Hcalm.
  - simpl. now rewrite Z.add_0_r.
  - inversion Hcalm as [|? ? He Hrest]; subst.
    destruct (tick_calm_state e w k Hk Hinv He) as [Hnext Hres].
    change (robot_simulation (e :: rest) w)
      with (bind (tick e) (fun _ => robot_simulation rest) w).
    unfold bind. destruct (tick e w) as [w1 r1]. simpl in Hnext, Hres.
    replace (k + Z.of_nat (List.length (e :: rest)))
      with (k + 1 + Z.of_nat (List.length rest))
      by (change (List.length (e :: rest)) with (S (List.length rest));
          lia).
    destruct r1 as [[]|x].
    + apply IH; [lia | exact Hnext | exact Hrest].
    + destruct Hres as [Hres| ->]; [discriminate|]. cbn [fst].
      apply (calm_state_closed (50 + 1)); [lia | lia | exact Hnext].
Qed.

(** C4, as the code has it.  From the state a fresh start leaves (cleaning,
    status mopping, progress 0), after [N] iterations of the loop whose
    obstacle draw never fires, progress is [min(100, 2*N)]; for [N <= 50]
    the robot is still cleaning and its status is the threshold function of
    the progress; for [N > 50] the session has been closed and the status is
    idle. *)
Theorem progress_after_calm_iterations (envs : list Env) (w : World) :
  is_cleaning (robot_state w) = true ->
  status (robot_state w) = mopping ->
  progress (robot_state w) = 0 ->
  Forall (fun e => random_below_tenth e = false) envs ->
  let N := Z.of_nat (List.length envs) in
  let rs := robot_state (exec (robot_simulation envs) w) in
  progress rs = Z.min 100 (2 * N)
  /\ (N <= 50 ->
      is_cleaning rs = true /\ status rs = status_for_progress (progress rs))
  /\ (50 < N -> is_cleaning rs = false /\ status rs = idle).
Proof.
  intros Hc Hst Hpr Hcalm N rs.
  assert (H0 : calm_state 0 (robot_state w)).
  { unfold calm_state. simpl. now rewrite Hc, Hst, Hpr. }
  pose proof (robot_simulation_calm_state envs w 0 (Z.le_refl 0) H0 Hcalm)
    as Hinv.
  rewrite Z.add_0_l in Hinv. fold N in Hinv.
  unfold exec in rs. fold rs in Hinv. clearbody rs N.
  unfold calm_state in Hinv.
  destruct (Z.leb_spec N 50) as [Hle|Hgt].
  - destruct Hinv as (Hc' & Hpr' & Hst').
    split; [lia|]. split; [|lia].
    intros _. split; [exact Hc'|]. now rewrite Hpr'.
  - destruct Hinv as (Hc' & Hpr' & Hst').
    split; [lia|]. split; [lia|]. now auto.
Qed.

Lemma calm_envs_calm (n : nat) :
  Forall (fun e => random_below_tenth e = false) (calm_envs n).
Proof.
  unfold calm_envs. apply Forall_forall. intros e He.
  apply in_map_iff in He. destruct He as (k & <- & _). reflexivity.
Qed.

Lemma progress_after_calm_iterations_witness :
  progress (robot_state (exec (robot_simulation (calm_envs 30)) world_started))
  = 60
  /\ status (robot_state (exec (robot_simulation (calm_envs 30)) world_started))
     = uv_disinfecting.
Proof.
  destruct (progress_after_calm_iterations
              (calm_envs 30) world_started eq_refl eq_refl eq_refl
              (calm_envs_calm 30)) as (Hpr & Hact & _).
  cbn [List.length] in Hpr, Hact. split.
  - exact Hpr.
  - destruct Hact as [_ Hst]; [vm_compute; discriminate|].
    rewrite Hst, Hpr. reflexivity.
Defined.

(** C4 fails as stated: 51 calm iterations after a fresh start the progress
    is [min(100, 102) = 100], for which the threshold table gives mopping,
    but the status is idle. *)
Lemma status_idle_after_51_calm_iterations :
  let rs := robot_state (exec (robot_simulation (calm_envs 51)) world_started) in
  progress rs = Z.min 100 (2 * 51)
  /\ status_for_progress (progress rs) = mopping
  /\ status rs = idle
  /\ status rs <> status_for_progress (progress rs).
Proof.
  vm_compute. repeat split; discriminate.
Qed.

(** ** A failing log write *)

(** C8, as the code has it.  When the database refuses the write of a
    session whose start time and mode are set, the assignments made before
    the write stand and nothing after it runs; the failure leaves the
    coroutine as an exception.  In [stop] that is [is_cleaning = False] and
    [status = idle], with progress, start time and mode not yet cleared, no
    record, no broadcast and no result; the simulation task is not
    affected.  In the closing iteration of the loop that is
    [is_cleaning = False], [status = idle], [progress = 100], no record and
    no broadcast; the exception leaves [robot_simulation], whose remaining
    iterations never run, and the task stays finished whatever wakes it. *)
Theorem storage_error_stands_and_propagates
        (e : Env) (m : option string) (w : World) (t0 : datetime) (md : string) :
  is_cleaning (robot_state w) = true ->
  start_time (robot_state w) = Some t0 ->
  current_mode (robot_state w) = Some md ->
  insert_one_ok e = false ->
  send_robot_command e (mkRobotCommand "stop" m) w
  = (put_robot (mkRobotState idle (progress (robot_state w)) false
                             (obstacle_detected (robot_state w))
                             (Some t0) (Some md)
                             (pause_reason (robot_state w))) w,
     Raised StorageError)
  /\ (forall t,
        sim (step (mkSystem w t) (Request e (mkRobotCommand "stop" m))) = t)
  /\ (status (robot_state w) <> paused ->
      100 <= progress (robot_state w) ->
      (forall rest,
          robot_simulation (e :: rest) w
          = (put_robot (closed (robot_state w)) w, Raised StorageError))
      /\ step (mkSystem w at_loop_head) (Wake e)
         = mkSystem (put_robot (closed (robot_state w)) w)
                    (task_finished StorageError)
      /\ (forall e' w' x,
             step (mkSystem w' (task_finished x)) (Wake e')
             = mkSystem w' (task_finished x))).
Proof.
  intros Hc Ht Hm Hdb. split; [|split].
  - unfold send_robot_command. simpl. unfold_coroutine. simpl.
    rewrite Hc. simpl. rewrite Ht. simpl. rewrite Hm, Hdb. simpl.
    unfold set_status, set_is_cleaning, put_robot. simpl.
    now rewrite Ht, Hm.
  - reflexivity.
  - intros Hp Hge. apply Status_eqb_paused in Hp.
    pose proof (tick_close_storage_error e w t0 md Hc Hp Hge Ht Hm Hdb) as Hx.
    split; [|split].
    + intros rest.
      change (robot_simulation (e :: rest) w)
        with (bind (tick e) (fun _ => robot_simulation rest) w).
      unfold tick, bind. now rewrite Hx.
    + unfold step. simpl. now rewrite Hx.
    + reflexivity.
Qed.

Lemma storage_error_stands_and_propagates_witness :
  sim (step (mkSystem (world system_at_100) at_loop_head)
            (Wake (env_db_down 255000000)))
  = task_finished StorageError
  /\ snd (send_robot_command (env_db_down 7500000)
                             (mkRobotCommand "stop" default_mode)
                             world_started)
     = Raised StorageError.
Proof.
  assert (Hc : is_cleaning (robot_state (world system_at_100)) = true)
    by (vm_compute; reflexivity).
  assert (Ht : start_time (robot_state (world system_at_100)) = Some 0)
    by (vm_compute; reflexivity).
  assert (Hm : current_mode (robot_state (world system_at_100))
               = Some "full_clean")
    by (vm_compute; reflexivity).
  assert (Hnp : status (robot_state (world system_at_100)) <> paused)
    by (vm_compute; discriminate).
  assert (Hge : 100 <= progress (robot_state (world system_at_100)))
    by (vm_compute; discriminate).
  split.
  - destruct (storage_error_stands_and_propagates
                (env_db_down 255000000) default_mode (world system_at_100)
                0 "full_clean" Hc Ht Hm eq_refl)
      as (_ & _ & Hclose).
    destruct (Hclose Hnp Hge) as (_ & Hstep & _).
    exact (f_equal sim Hstep).
  - destruct (storage_error_stands_and_propagates
                (env_db_down 7500000) default_mode world_started
                0 "full_clean" eq_refl eq_refl eq_refl eq_refl)
      as (Hstop & _).
    exact (f_equal snd Hstop).
Defined.

(** C8 fails as stated: when the write of the closing iteration fails, the
    simulation task ends with the exception.  The state change stands
    (not cleaning, idle, progress 100, nothing logged), but the loop does
    not run again: after a new [start], waking the task twice leaves the
    progress at 0, and the only new broadcast is the one of [start]. *)
Lemma simulation_loop_dies_on_storage_error :
  let s := step system_at_100 (Wake (env_db_down 255000000)) in
  let s' := run [Request (env_calm 260000000) cmd_start;
                 Wake (env_calm 265000000);
                 Wake (env_calm 270000000)] s in
  sim system_at_100 = at_loop_head
  /\ sim s = task_finished StorageError
  /\ robot_state (world s)
     = mkRobotState idle 100 false false (Some 0) (Some "full_clean") None
  /\ cleaning_logs (world s) = []
  /\ sim s' = task_finished StorageError
  /\ is_cleaning (robot_state (world s')) = true
  /\ status (robot_state (world s')) = mopping
  /\ progress (robot_state (world s')) = 0
  /\ List.length (broadcast_log (world s'))
     = S (List.length (broadcast_log (world s))).
Proof.
  vm_compute. repeat split; reflexivity.
Qed.

(** ** The data-model invariants on reachable states *)

(** An accepted [start] with a mode: the five assignments, one [info]
    broadcast, [success = True]. *)
Lemma start_accepted (e : Env) (md : string) (w : World) :
  is_cleaning (robot_state w) = false ->
  let w' := exec (send_robot_command e (mkRobotCommand "start" (Some md))) w in
  robot_state w'
  = mkRobotState mopping 0 true (obstacle_detected (robot_state w))
                 (Some (utcnow e)) (Some md) (pause_reason (robot_state w))
  /\ outcome (send_robot_command e (mkRobotCommand "start" (Some md))) w
     = Returned (Some (mkResponse true "Cleaning started"
                                  (Some (to_dict (robot_state w'))))).
Proof.
  intros Hc w'. subst w'.
  unfold send_robot_command. simpl. unfold_coroutine. simpl.
  rewrite Hc. simpl. split; reflexivity.
Qed.

(** C1 on the code.  The invariant holds at startup and after [start], and
    is broken on two paths.  (a) An iteration whose obstacle draw fires
    pauses the robot and, after the grace wait, clears [pause_reason] and
    [obstacle_detected] but leaves [status] paused: the state then has
    [status = paused] with [pause_reason = None], and stays so on later
    iterations.  (b) [stop] issued while paused sets [status] idle and
    leaves [pause_reason] set. *)
Theorem pause_reason_invariant_broken :
  let s0 := run [Request (env_calm 0) cmd_start] System_init in
  let s1 := run [Wake (env_obstacle 5000000); Wake (env_calm 8000000)] s0 in
  let s2 := run [Wake (env_calm 13000000)] s1 in
  let s3 := run [Request (env_calm 1000000) cmd_pause;
                 Request (env_calm 2000000) cmd_stop] s0 in
  pause_reason_iff_paused (robot_state (world System_init))
  /\ pause_reason_iff_paused (robot_state (world s0))
  /\ robot_state (world s1)
     = mkRobotState paused 2 true false (Some 0) (Some "full_clean") None
  /\ robot_state (exec (tick (env_obstacle 5000000)) (world s0))
     = robot_state (world s1)
  /\ sim s1 = at_loop_head
  /\ ~ pause_reason_iff_paused (robot_state (world s1))
  /\ robot_state (world s2) = robot_state (world s1)
  /\ robot_state (world s3)
     = mkRobotState idle 0 false false None None
                    (Some PauseReason.user_request)
  /\ ~ pause_reason_iff_paused (robot_state (world s3)).
Proof.
  unfold pause_reason_iff_paused. vm_compute.
  repeat split; try discriminate; try congruence.
  - intros [_ H]. now apply H.
  - intros [H _]. assert (Hx : idle = paused)
      by (apply H; intros Hn; discriminate Hn).
    discriminate Hx.
Qed.

(** C2 on the code.  The invariant holds at startup, after [start] and
    after [stop]; the iteration that closes a completed session sets
    [is_cleaning] false and leaves [start_time] and [current_mode] set.
    A [start] whose mode is null raises after its assignments and leaves
    [is_cleaning] true with [current_mode = None]. *)
Theorem session_fields_invariant_broken :
  let w := exec (tick (env_calm 255000000)) world_at_100 in
  let w_stop := exec (send_robot_command (env_calm 7500000) cmd_stop)
                     world_started in
  let null_start := send_robot_command (env_calm 0)
                                       (mkRobotCommand "start" None)
                                       World_init in
  session_fields_iff_cleaning (robot_state World_init)
  /\ session_fields_iff_cleaning (robot_state world_started)
  /\ session_fields_iff_cleaning (robot_state w_stop)
  /\ session_fields_iff_cleaning (robot_state world_at_100)
  /\ robot_state w
     = mkRobotState idle 100 false false (Some 0) (Some "full_clean") None
  /\ ~ session_fields_iff_cleaning (robot_state w)
  /\ snd null_start = Raised AttributeError
  /\ robot_state (fst null_start)
     = mkRobotState mopping 0 true false (Some 0) None None
  /\ ~ session_fields_iff_cleaning (robot_state (fst null_start)).
Proof.
  unfold session_fields_iff_cleaning. vm_compute.
  repeat split; try discriminate; try congruence.
  - intros [H _]. now elim H.
  - intros [H _]. now elim H.
  - intros [H _].
    assert (Hx : false = true)
      by (apply H; split; intros Hn; discriminate Hn).
    discriminate Hx.
  - intros [_ H]. destruct H as [H _]; [reflexivity|]. now apply H.
Qed.

(** * Further properties of the code *)

(** ** The list of connections *)

Lemma list_remove_absent (ws : WebSocket) (l : list WebSocket) :
  list_contains ws l = false -> list_remove ws l = l.
Proof.
  unfold list_contains. induction l as [|y rest IH]; simpl; [reflexivity|].
  intros H. apply orb_false_iff in H. destruct H as [Hy Hrest].
  rewrite Nat.eqb_sym, Hy. now rewrite IH.
Qed.

Lemma disconnect_is_list_remove (ws : WebSocket) (l : list WebSocket) :
  disconnect ws l = list_remove ws l.
Proof.
  unfold disconnect. destruct (list_contains ws l) eqn:H; [reflexivity|].
  symmetry. now apply list_remove_absent.
Qed.

Lemma disconnect_count_occ (ws c : WebSocket) (l : list WebSocket) :
  count_occ Nat.eq_dec (disconnect ws l) c
  = if Nat.eqb c ws
    then Nat.pred (count_occ Nat.eq_dec l c)
    else count_occ Nat.eq_dec l c.
Proof.
  rewrite disconnect_is_list_remove.
  induction l as [|y rest IH]; simpl.
  - now destruct (Nat.eqb c ws).
  - destruct (Nat.eqb_spec y ws) as [->|Hy].
    + destruct (Nat.eq_dec ws c) as [->|Hc].
      * now rewrite Nat.eqb_refl.
      * destruct (Nat.eqb_spec c ws) as [->|_]; [now elim Hc|reflexivity].
    + simpl. destruct (Nat.eq_dec y c) as [->|Hc].
      * destruct (Nat.eqb_spec c ws) as [->|_]; [now elim Hy|].
        rewrite IH. destruct (Nat.eqb_spec c ws) as [->|_];
          [now elim Hy|reflexivity].
      * exact IH.
Qed.

(** [disconnect] takes away one occurrence of the socket, if there is one,
    and no occurrence of any other socket: a socket that is not in the list
    leaves the list as it is, and no [ValueError] can arise. *)
Theorem disconnect_removes_one_occurrence
        (ws c : WebSocket) (l : list WebSocket) :
  count_occ Nat.eq_dec (disconnect ws l) c
  = (if Nat.eqb c ws
     then Nat.pred (count_occ Nat.eq_dec l c)
     else count_occ Nat.eq_dec l c)
  /\ (list_contains ws l = false -> disconnect ws l = l).
Proof.
  split; [apply disconnect_count_occ|].
  intros H. unfold disconnect. now rewrite H.
Qed.

Lemma disconnect_absent (ws : WebSocket) (l : list WebSocket) :
  ~ In ws l -> disconnect ws l = l.
Proof.
  intros Hnot. unfold disconnect.
  destruct (list_contains ws l) eqn:H; [|reflexivity].
  unfold list_contains in H. apply existsb_exists in H.
  destruct H as (x & Hin & Heq). apply Nat.eqb_eq in Heq. subst x.
  now elim Hnot.
Qed.

(** On a list without duplicates, [disconnect] leaves a list without
    duplicates from which the socket is gone and in which every other
    socket is still present; a second [disconnect] of the same socket
    changes nothing. *)
Theorem disconnect_unsubscribes
        (ws : WebSocket) (l : list WebSocket) :
  NoDup l ->
  NoDup (disconnect ws l)
  /\ ~ In ws (disconnect ws l)
  /\ (forall c, c <> ws -> (In c (disconnect ws l) <-> In c l))
  /\ disconnect ws (disconnect ws l) = disconnect ws l.
Proof.
  intros Hnd.
  assert (Hgone : ~ In ws (disconnect ws l)).
  { intros Hin. apply (count_occ_In Nat.eq_dec) in Hin.
    rewrite disconnect_count_occ, Nat.eqb_refl in Hin.
    rewrite (NoDup_count_occ Nat.eq_dec) in Hnd. specialize (Hnd ws).
    lia. }
  split; [|split; [exact Hgone|split]].
  - apply (NoDup_count_occ Nat.eq_dec). intros c.
    rewrite disconnect_count_occ.
    rewrite (NoDup_count_occ Nat.eq_dec) in Hnd. specialize (Hnd c).
    destruct (Nat.eqb c ws); lia.
  - intros c Hc. rewrite !(count_occ_In Nat.eq_dec).
    rewrite disconnect_count_occ.
    destruct (Nat.eqb_spec c ws) as [->|_]; [now elim Hc|reflexivity].
  - now apply disconnect_absent.
Qed.

Lemma disconnect_unsubscribes_witness :
  disconnect 2%nat [1%nat; 2%nat; 3%nat] = [1%nat; 3%nat]
  /\ ~ In 2%nat (disconnect 2%nat [1%nat; 2%nat; 3%nat]).
Proof.
  assert (Hnd : NoDup [1%nat; 2%nat; 3%nat]).
  { repeat constructor; simpl; intuition discriminate. }
  destruct (disconnect_unsubscribes 2%nat [1%nat; 2%nat; 3%nat] Hnd)
    as (_ & Hgone & _).
  split; [reflexivity | exact Hgone].
Defined.

Lemma disconnect_connected (ws : WebSocket) (l : list WebSocket) :
  ~ In ws l -> disconnect ws (l ++ [ws]) = l.
Proof.
  intros Hnot. rewrite disconnect_is_list_remove.
  induction l as [|y rest IH]; simpl.
  - now rewrite Nat.eqb_refl.
  - destruct (Nat.eqb_spec y ws) as [->|_].
    + elim Hnot. now left.
    + rewrite IH; [reflexivity|]. intros Hin. apply Hnot. now right.
Qed.

Lemma broadcast_active_connections (e : Env) (m : Message) (w : World) :
  active_connections (fst (broadcast e m w))
  = filter (fun c => send_text_ok e c m) (active_connections w).
Proof.
  unfold broadcast. simpl.
  now rewrite send_each_disconnected, disconnect_all_failed.
Qed.

Lemma broadcast_send_log (e : Env) (m : Message) (w : World) :
  send_log (fst (broadcast e m w))
  = send_log w
    ++ map (fun c => mkSendAttempt c m (send_text_ok e c m))
           (active_connections w).
Proof.
  unfold broadcast. simpl. now rewrite send_each_calls.
Qed.

(** ** The WebSocket endpoint *)

Lemma frames_to_broadcast (ws : WebSocket) (m : Message)
      (ok : WebSocket -> bool) (l : list WebSocket) :
  frames_to ws (map (fun c => mkSendAttempt c m (ok c)) l)
  = repeat (mkSendAttempt ws m (ok ws)) (count_occ Nat.eq_dec l ws).
Proof.
  unfold frames_to. induction l as [|y rest IH]; simpl; [reflexivity|].
  destruct (Nat.eqb_spec y ws) as [->|Hy].
  - destruct (Nat.eq_dec ws ws) as [_|Hn]; [|now elim Hn].
    simpl. now rewrite IH.
  - destruct (Nat.eq_dec y ws) as [Heq|_]; [now elim Hy|]. exact IH.
Qed.

Lemma websocket_endpoint_open_sent
      (e : Env) (failure : SendFailure) (ws : WebSocket) (w : World) :
  send_text_ok e ws (status_update_of (robot_state w)) = true ->
  websocket_endpoint_open e failure ws w
  = (mkWorld (robot_state w) (cleaning_logs w)
             (active_connections w ++ [ws])
             (send_log w
              ++ [mkSendAttempt ws (status_update_of (robot_state w)) true])
             (broadcast_log w),
     receiving).
Proof.
  intros Hok. unfold websocket_endpoint_open. cbn. now rewrite Hok.
Qed.

(** A socket that was not connected and whose initial frame goes through
    is subscribed after [websocket_endpoint] has opened it; the first frame
    it is sent is the status update holding the robot state at that moment,
    and the next broadcast sends it exactly one frame, after that one.  The
    robot state, the log and the broadcast history are not touched by the
    opening. *)
Theorem endpoint_sends_snapshot_first
        (e e' : Env) (failure : SendFailure) (ws : WebSocket)
        (m : Message) (w : World) :
  ~ In ws (active_connections w) ->
  send_text_ok e ws (status_update_of (robot_state w)) = true ->
  let w1 := fst (websocket_endpoint_open e failure ws w) in
  let w2 := fst (broadcast e' m w1) in
  snd (websocket_endpoint_open e failure ws w) = receiving
  /\ active_connections w1 = active_connections w ++ [ws]
  /\ robot_state w1 = robot_state w
  /\ cleaning_logs w1 = cleaning_logs w
  /\ broadcast_log w1 = broadcast_log w
  /\ frames_to ws (send_log w2)
     = frames_to ws (send_log w)
       ++ [mkSendAttempt ws (status_update_of (robot_state w)) true;
           mkSendAttempt ws m (send_text_ok e' ws m)].
Proof.
  intros Hnew Hok w1 w2. subst w2 w1.
  rewrite (websocket_endpoint_open_sent e failure ws w Hok).
  cbn [fst snd active_connections robot_state cleaning_logs broadcast_log].
  repeat split.
  rewrite broadcast_send_log.
  cbn [send_log active_connections].
  unfold frames_to. rewrite !filter_app, map_app, filter_app.
  fold (frames_to ws (map (fun c => mkSendAttempt c m (send_text_ok e' c m))
                          (active_connections w))).
  rewrite frames_to_broadcast.
  apply (count_occ_not_In Nat.eq_dec) in Hnew. rewrite Hnew.
  cbn. rewrite Nat.eqb_refl. now rewrite <- app_assoc.
Qed.

Lemma endpoint_sends_snapshot_first_witness :
  frames_to 4%nat
    (send_log
       (fst (broadcast (env_calm 0) status_message
               (fst (websocket_endpoint_open (env_calm 0) raises_other 4%nat
                                             world_three_subscribers)))))
  = [mkSendAttempt 4%nat (status_update_of RobotState_init) true;
     mkSendAttempt 4%nat status_message true].
Proof.
  assert (Hnew : ~ In 4%nat (active_connections world_three_subscribers))
    by (simpl; intuition discriminate).
  destruct (endpoint_sends_snapshot_first
              (env_calm 0) (env_calm 0) raises_other 4%nat status_message
              world_three_subscribers Hnew eq_refl)
    as (_ & _ & _ & _ & _ & Hframes).
  exact Hframes.
Defined.

(** How a connection that was not yet in the list leaves it again.  If the
    initial frame went through, the [WebSocketDisconnect] raised later by
    [receive_text] restores the list.  If the initial frame failed with
    [WebSocketDisconnect], the list is already restored when the endpoint
    returns.  If it failed with any other exception, the endpoint ends with
    the socket still in the list, and it is the next broadcast whose send to
    that socket fails that takes it out. *)
Theorem endpoint_releases_connection
        (e : Env) (failure : SendFailure) (ws : WebSocket) (w : World) :
  ~ In ws (active_connections w) ->
  let r := websocket_endpoint_open e failure ws w in
  match snd r with
  | receiving =>
      active_connections (websocket_endpoint_disconnected ws (fst r))
      = active_connections w
  | returned => active_connections (fst r) = active_connections w
  | propagated =>
      active_connections (fst r) = active_connections w ++ [ws]
      /\ forall e' m,
          send_text_ok e' ws m = false ->
          active_connections (fst (broadcast e' m (fst r)))
          = filter (fun c => send_text_ok e' c m) (active_connections w)
  end.
Proof.
  intros Hnew r. subst r.
  unfold websocket_endpoint_open, websocket_endpoint_disconnected, connect.
  cbn [fst snd robot_state cleaning_logs active_connections send_log
       broadcast_log].
  destruct (send_text_ok e ws (status_update_of (robot_state w)));
    cbn [fst snd active_connections].
  - now apply disconnect_connected.
  - destruct failure; cbn [fst snd active_connections].
    + now apply disconnect_connected.
    + split; [reflexivity|]. intros e' m Hfail.
      rewrite broadcast_active_connections. cbn [active_connections].
      rewrite filter_app. cbn [filter]. rewrite Hfail. apply app_nil_r.
Qed.

Lemma endpoint_releases_connection_witness :
  active_connections
    (websocket_endpoint_disconnected 4%nat
       (fst (websocket_endpoint_open (env_calm 0) raises_other 4%nat
                                     world_three_subscribers)))
  = [1%nat; 2%nat; 3%nat].
Proof.
  assert (Hnew : ~ In 4%nat (active_connections world_three_subscribers))
    by (simpl; intuition discriminate).
  exact (endpoint_releases_connection
           (env_calm 0) raises_other 4%nat world_three_subscribers Hnew).
Defined.

(** ** What a command returns and broadcasts *)

Lemma send_robot_command_cases (e : Env) (c : RobotCommand) (w : World) :
  match send_robot_command e c w with
  | (w', Returned (Some resp)) =>
      if success resp
      then resp_robot_state resp = Some (to_dict (robot_state w'))
      else w' = w /\ resp_robot_state resp = None
  | (w', Returned None) => w' = w
  | (_, Raised _) => True
  end.
Proof.
  unfold send_robot_command. unfold_coroutine. cbn.
  split_branches; cbn; auto.
Qed.

Lemma send_robot_command_broadcasts (e : Env) (c : RobotCommand) (w : World) :
  match send_robot_command e c w with
  | (w', Returned (Some resp)) =>
      success resp = true ->
      exists text,
        broadcast_log w'
        = broadcast_log w
          ++ [mkMessage info (Some text) (to_dict (robot_state w')) None]
  | (w', _) => broadcast_log w' = broadcast_log w
  end.
Proof.
  unfold send_robot_command. unfold_coroutine. cbn.
  split_branches; cbn; auto; try discriminate;
    intros _; eexists; reflexivity.
Qed.

(** Whatever the command and the state, a returned dictionary with
    [success = True] carries the robot state as the command left it, and
    exactly one message was broadcast, of type [info], carrying that same
    state; a returned dictionary with [success = False] carries no state
    and the world is exactly as before. *)
Theorem response_reports_state_after_command
        (e : Env) (c : RobotCommand) (w w' : World) (resp : Response) :
  send_robot_command e c w = (w', Returned (Some resp)) ->
  (success resp = true ->
   resp_robot_state resp = Some (to_dict (robot_state w'))
   /\ exists text,
       broadcast_log w'
       = broadcast_log w
         ++ [mkMessage info (Some text) (to_dict (robot_state w')) None])
  /\ (success resp = false -> w' = w /\ resp_robot_state resp = None).
Proof.
  intros Hrun.
  pose proof (send_robot_command_cases e c w) as Hc.
  pose proof (send_robot_command_broadcasts e c w) as Hb.
  rewrite Hrun in Hc, Hb. split.
  - intros Hs. rewrite Hs in Hc. split; [exact Hc|now apply Hb].
  - intros Hs. now rewrite Hs in Hc.
Qed.

Lemma response_reports_state_after_command_witness :
  resp_robot_state
    (mkResponse true "Cleaning started"
                (Some (to_dict (robot_state world_started))))
  = Some (to_dict (robot_state world_started)).
Proof.
  assert (Hrun : send_robot_command (env_calm 0) cmd_start World_init
                 = (world_started,
                    Returned (Some (mkResponse true "Cleaning started"
                       (Some (to_dict (robot_state world_started)))))))
    by (vm_compute; reflexivity).
  destruct (response_reports_state_after_command _ _ _ _ _ Hrun)
    as [Hacc _].
  destruct (Hacc eq_refl) as [Hst _]. exact Hst.
Defined.

(** ** Start *)

(** [start] on a robot that is not cleaning, with a mode: the session
    begins at progress 0 in status mopping with the clock's time and the
    requested mode; [obstacle_detected] and [pause_reason] keep whatever
    value they had; nothing is logged; one [info] message is broadcast whose
    text names the mode with its underscores turned into spaces. *)
Theorem start_begins_session (e : Env) (md : string) (w : World) :
  is_cleaning (robot_state w) = false ->
  let r := send_robot_command e (mkRobotCommand "start" (Some md)) w in
  let rs' := mkRobotState mopping 0 true (obstacle_detected (robot_state w))
                          (Some (utcnow e)) (Some md)
                          (pause_reason (robot_state w)) in
  snd r = Returned (Some (mkResponse true "Cleaning started"
                                     (Some (to_dict rs'))))
  /\ robot_state (fst r) = rs'
  /\ cleaning_logs (fst r) = cleaning_logs w
  /\ broadcast_log (fst r)
     = broadcast_log w
       ++ [mkMessage info
             (Some ("Starting " ++ str_replace "_"%char " "%char md
                    ++ " cycle...")%string)
             (to_dict rs') None].
Proof.
  intros Hc r rs'. subst r rs'.
  unfold send_robot_command. unfold_coroutine. cbn.
  rewrite Hc. cbn. repeat split.
Qed.

Lemma start_begins_session_witness :
  map msg_message
      (broadcast_log
         (fst (send_robot_command (env_calm 0)
                 (mkRobotCommand "start" (Some "full_clean")) World_init)))
  = [Some "Starting full clean cycle..."].
Proof.
  destruct (start_begins_session (env_calm 0) "full_clean" World_init eq_refl)
    as (_ & _ & _ & Hb).
  rewrite Hb. reflexivity.
Defined.

(** [start] with a null mode on a robot that is not cleaning raises
    [AttributeError] after its assignments: nothing is broadcast or logged,
    yet the robot is now cleaning with [current_mode = None].  In the state
    this leaves, a [start] is refused, and a [stop] raises
    [ValidationError], writes no record and leaves the robot idle and not
    cleaning with its start time uncleared. *)
Theorem start_with_null_mode_half_starts (e : Env) (w : World) :
  is_cleaning (robot_state w) = false ->
  let r := send_robot_command e (mkRobotCommand "start" None) w in
  let rs' := mkRobotState mopping 0 true (obstacle_detected (robot_state w))
                          (Some (utcnow e)) None
                          (pause_reason (robot_state w)) in
  r = (put_robot rs' w, Raised AttributeError)
  /\ (forall e' m,
        send_robot_command e' (mkRobotCommand "start" m) (fst r)
        = (fst r, Returned (Some (mkResponse false "Robot is already cleaning"
                                             None))))
  /\ (forall e' m,
        send_robot_command e' (mkRobotCommand "stop" m) (fst r)
        = (put_robot (mkRobotState idle 0 false
                                   (obstacle_detected (robot_state w))
                                   (Some (utcnow e)) None
                                   (pause_reason (robot_state w))) w,
           Raised ValidationError)).
Proof.
  intros Hc r rs'. subst r rs'.
  assert (Hr : send_robot_command e (mkRobotCommand "start" None) w
               = (put_robot
                    (mkRobotState mopping 0 true
                       (obstacle_detected (robot_state w))
                       (Some (utcnow e)) None
                       (pause_reason (robot_state w))) w,
                  Raised AttributeError)).
  { unfold send_robot_command. unfold_coroutine. cbn. now rewrite Hc. }
  rewrite Hr. cbn [fst]. split; [reflexivity|]. split; intros e' m.
  - unfold send_robot_command. unfold_coroutine. reflexivity.
  - unfold send_robot_command. unfold_coroutine. reflexivity.
Qed.

Lemma start_with_null_mode_half_starts_witness :
  snd (send_robot_command (env_calm 0) (mkRobotCommand "start" None)
                          World_init)
  = Raised AttributeError.
Proof.
  destruct (start_with_null_mode_half_starts (env_calm 0) World_init eq_refl)
    as (Hr & _).
  exact (f_equal snd Hr).
Defined.

(** ** The loop while nothing is to be done *)

Lemma robot_simulation_skips (envs : list Env) (w : World) :
  is_cleaning (robot_state w)
    && negb (Status_eqb (status (robot_state w)) paused) = false ->
  robot_simulation envs w = (w, Returned tt).
Proof.
  intros H. induction envs as [|e rest IH]; [reflexivity|].
  change (robot_simulation (e :: rest) w)
    with (bind (tick e) (fun _ => robot_simulation rest) w).
  unfold bind. rewrite (tick_inactive e w H). exact IH.
Qed.

(** While the robot is not cleaning, or is paused, any number of iterations
    of the loop returns normally and changes nothing at all: no progress,
    no broadcast, no frame, no record. *)
Theorem robot_simulation_inactive (envs : list Env) (w : World) :
  is_cleaning (robot_state w) = false \/ status (robot_state w) = paused ->
  robot_simulation envs w = (w, Returned tt).
Proof.
  intros H. apply robot_simulation_skips.
  destruct H as [H|H]; rewrite H; [reflexivity | apply andb_false_r].
Qed.

Lemma robot_simulation_inactive_witness :
  robot_simulation (calm_envs 5) World_init = (World_init, Returned tt).
Proof.
  exact (robot_simulation_inactive (calm_envs 5) World_init
           (or_introl eq_refl)).
Defined.

(** An iteration below 100 whose obstacle draw fires broadcasts alert, info
    and status update in that order and leaves the robot paused with
    [pause_reason] and [obstacle_detected] cleared; nothing is logged.  The
    loop then makes no further step: whatever number of iterations follows,
    the world stays as that iteration left it. *)
Theorem obstacle_iteration_halts_loop
        (e : Env) (rest : list Env) (w : World) :
  is_cleaning (robot_state w) = true ->
  status (robot_state w) <> paused ->
  progress (robot_state w) < 100 ->
  random_below_tenth e = true ->
  obstacle_detected (robot_state w) = false ->
  let w' := fst (tick e w) in
  robot_simulation (e :: rest) w = (w', Returned tt)
  /\ robot_state w'
     = mkRobotState paused (progress (robot_state w) + 2) true false
                    (start_time (robot_state w))
                    (current_mode (robot_state w)) None
  /\ cleaning_logs w' = cleaning_logs w
  /\ map msg_type (broadcast_log w')
     = map msg_type (broadcast_log w) ++ [alert; info; status_update].
Proof.
  intros Hc Hp Hlt Hroll Hobs w'. apply Status_eqb_paused in Hp.
  assert (Hfire : random_below_tenth e
                  && negb (obstacle_detected (robot_state w)) = true)
    by now rewrite Hroll, Hobs.
  destruct (tick_obstacle e w Hc Hp Hlt Hfire) as (Hret & Hrs & Hlogs & Hmsgs).
  fold w' in Hrs, Hlogs, Hmsgs.
  split; [|split; [|split; [exact Hlogs|exact Hmsgs]]].
  - change (robot_simulation (e :: rest) w)
      with (bind (tick e) (fun _ => robot_simulation rest) w).
    unfold bind. subst w'. destruct (tick e w) as [w1 r1].
    cbn [fst snd] in *. subst r1.
    apply robot_simulation_skips. rewrite Hrs. cbn.
    apply andb_false_r.
  - rewrite Hrs. unfold obstacle_cleared. now rewrite Hc.
Qed.

Lemma obstacle_iteration_halts_loop_witness :
  robot_simulation (env_obstacle 5000000 :: calm_envs 3) world_started
  = (fst (tick (env_obstacle 5000000) world_started), Returned tt).
Proof.
  assert (Hc : is_cleaning (robot_state world_started) = true)
    by (vm_compute; reflexivity).
  assert (Hnp : status (robot_state world_started) <> paused)
    by (vm_compute; discriminate).
  assert (Hlt : progress (robot_state world_started) < 100)
    by (vm_compute; reflexivity).
  assert (Hobs : obstacle_detected (robot_state world_started) = false)
    by (vm_compute; reflexivity).
  destruct (obstacle_iteration_halts_loop
              (env_obstacle 5000000) (calm_envs 3) world_started
              Hc Hnp Hlt eq_refl Hobs) as (Hrun & _).
  exact Hrun.
Defined.

(** ** The segments of the two writing coroutines *)

Lemma stop_is_not_start (c : RobotCommand) :
  String.eqb (command c) "stop" = true ->
  String.eqb (command c) "start" = false.
Proof. intros H. apply String.eqb_eq in H. now rewrite H. Qed.

(** The handler is its two segments run one after the other. *)
Lemma send_robot_command_split (e : Env) (c : RobotCommand) (w : World) :
  send_robot_command e c w
  = match send_robot_command_until_write e c w with
    | (w1, Returned (handler_returned r)) => (w1, Returned r)
    | (w1, Returned (handler_at_write log)) =>
        send_robot_command_after_write e log w1
    | (w1, Raised x) => (w1, Raised x)
    end.
Proof.
  unfold send_robot_command_until_write, bind, get_robot.
  destruct (String.eqb (command c) "stop") eqn:Hstop;
    [destruct (is_cleaning (robot_state w)) eqn:Hc|]; cbn [andb].
  - unfold send_robot_command. rewrite (stop_is_not_start c Hstop), Hstop.
    unfold send_robot_command_after_write. unfold_coroutine. cbn.
    rewrite Hc. split_branches; reflexivity.
  - destruct (send_robot_command e c w) as [w1 [r|x]]; reflexivity.
  - destruct (send_robot_command e c w) as [w1 [r|x]]; reflexivity.
Qed.

(** The first segment of a request that is not a [stop] of a cleaning
    robot is the whole handler. *)
Lemma send_robot_command_until_write_returns
      (e : Env) (c : RobotCommand) (w : World) :
  String.eqb (command c) "stop" && is_cleaning (robot_state w) = false ->
  send_robot_command_until_write e c w
  = match send_robot_command e c w with
    | (w1, Returned r) => (w1, Returned (handler_returned r))
    | (w1, Raised x) => (w1, Raised x)
    end.
Proof.
  intros H. unfold send_robot_command_until_write, bind, get_robot.
  rewrite H. destruct (send_robot_command e c w) as [w1 [r|x]]; reflexivity.
Qed.

(** The first segment of a [stop] of a cleaning robot: the two assignments
    stand whatever follows; the record it builds, if any, is the one the
    handler would write. *)
Lemma send_robot_command_until_write_stop
      (e : Env) (c : RobotCommand) (w : World) :
  String.eqb (command c) "stop" && is_cleaning (robot_state w) = true ->
  fst (send_robot_command_until_write e c w)
  = put_robot (set_status idle (set_is_cleaning false (robot_state w))) w
  /\ match snd (send_robot_command_until_write e c w) with
     | Returned (handler_at_write log) =>
         start_time (robot_state w) = Some (CleaningLog.start_time log)
         /\ current_mode (robot_state w) = Some (CleaningLog.mode log)
         /\ log = CleaningLog.mk (uuid4 e) (CleaningLog.start_time log)
                    (Some (utcnow e))
                    (Some (Z.quot (utcnow e - CleaningLog.start_time log)
                                  1000000))
                    (CleaningLog.mode log) interrupted
                    (progress (robot_state w))
     | Returned (handler_returned _) => False
     | Raised x =>
         (x = TypeError /\ start_time (robot_state w) = None)
         \/ (x = ValidationError /\ current_mode (robot_state w) = None)
     end.
Proof.
  intros H. unfold send_robot_command_until_write. unfold_coroutine. cbn.
  rewrite H. cbn.
  destruct (start_time (robot_state w)); cbn; [|auto].
  destruct (current_mode (robot_state w)); cbn; auto.
Qed.

(** The second segment of [stop]. *)
Lemma send_robot_command_after_write_cases
      (e : Env) (log : CleaningLog.t) (w : World) :
  if insert_one_ok e
  then robot_state (fst (send_robot_command_after_write e log w))
       = set_current_mode None
           (set_start_time None (set_progress 0 (robot_state w)))
       /\ cleaning_logs (fst (send_robot_command_after_write e log w))
          = cleaning_logs w ++ [log]
       /\ broadcast_log (fst (send_robot_command_after_write e log w))
          = broadcast_log w
            ++ [mkMessage info (Some "Cleaning stopped by user")
                  (to_dict (set_current_mode None
                              (set_start_time None
                                 (set_progress 0 (robot_state w)))))
                  None]
  else send_robot_command_after_write e log w = (w, Raised StorageError).
Proof.
  unfold send_robot_command_after_write. unfold_coroutine. cbn.
  destruct (insert_one_ok e); cbn; auto.
Qed.

(** The iteration is its segments run one after the other. *)
Lemma tick_before_sleep_split (e : Env) (w : World) :
  tick_before_sleep e w
  = match tick_until_suspended e w with
    | (w1, Returned (at_sleep grace)) => (w1, Returned grace)
    | (w1, Returned (at_write log duration)) =>
        match cleaning_complete_after_write e log duration w1 with
        | (w2, Returned _) => (w2, Returned false)
        | (w2, Raised x) => (w2, Raised x)
        end
    | (w1, Raised x) => (w1, Raised x)
    end.
Proof.
  unfold tick_until_suspended, bind, get_robot.
  destruct (is_cleaning (robot_state w)
            && negb (Status_eqb (status (robot_state w)) paused)) eqn:Hact;
    [destruct (progress (robot_state w) <? 100) eqn:Hlt|]; cbn [andb negb].
  - destruct (tick_before_sleep e w) as [w1 [b|x]]; reflexivity.
  - unfold tick_before_sleep, cleaning_complete_branch,
      cleaning_complete_until_write, cleaning_complete_after_write.
    unfold_coroutine. cbn. rewrite Hact, Hlt. cbn.
    split_branches; reflexivity.
  - destruct (tick_before_sleep e w) as [w1 [b|x]]; reflexivity.
Qed.

(** Outside the closing branch the first segment of an iteration is
    [tick_before_sleep]. *)
Lemma tick_until_suspended_sleeps (e : Env) (w : World) :
  is_cleaning (robot_state w)
    && negb (Status_eqb (status (robot_state w)) paused)
    && negb (progress (robot_state w) <? 100) = false ->
  tick_until_suspended e w
  = match tick_before_sleep e w with
    | (w1, Returned grace) => (w1, Returned (at_sleep grace))
    | (w1, Raised x) => (w1, Raised x)
    end.
Proof.
  intros H. unfold tick_until_suspended, bind, get_robot. rewrite H.
  destruct (tick_before_sleep e w) as [w1 [b|x]]; reflexivity.
Qed.

(** The first segment of the closing branch: the three assignments stand
    whatever follows; the record it builds, if any, is the one the loop
    would write. *)
Lemma tick_until_suspended_closes (e : Env) (w : World) :
  is_cleaning (robot_state w)
    && negb (Status_eqb (status (robot_state w)) paused)
    && negb (progress (robot_state w) <? 100) = true ->
  fst (tick_until_suspended e w) = put_robot (closed (robot_state w)) w
  /\ match snd (tick_until_suspended e w) with
     | Returned (at_write log duration) =>
         start_time (robot_state w) = Some (CleaningLog.start_time log)
         /\ current_mode (robot_state w) = Some (CleaningLog.mode log)
         /\ duration
            = Z.quot (utcnow e - CleaningLog.start_time log) 1000000
         /\ log = CleaningLog.mk (uuid4 e) (CleaningLog.start_time log)
                    (Some (utcnow e)) (Some duration)
                    (CleaningLog.mode log) completed 100
     | Returned (at_sleep _) => False
     | Raised x =>
         (x = TypeError /\ start_time (robot_state w) = None)
         \/ (x = ValidationError /\ current_mode (robot_state w) = None)
     end.
Proof.
  intros H. unfold tick_until_suspended, cleaning_complete_until_write.
  unfold_coroutine. cbn. rewrite H. cbn.
  destruct (start_time (robot_state w)); cbn; [|auto].
  destruct (current_mode (robot_state w)); cbn; auto.
Qed.

(** The second segment of the closing branch. *)
Lemma cleaning_complete_after_write_cases
      (e : Env) (log : CleaningLog.t) (duration : Z) (w : World) :
  if insert_one_ok e
  then snd (cleaning_complete_after_write e log duration w) = Returned tt
       /\ robot_state (fst (cleaning_complete_after_write e log duration w))
          = robot_state w
       /\ cleaning_logs (fst (cleaning_complete_after_write e log duration w))
          = cleaning_logs w ++ [log]
       /\ broadcast_log (fst (cleaning_complete_after_write e log duration w))
          = broadcast_log w
            ++ [mkMessage cleaning_complete
                  (Some "Cleaning cycle completed successfully!")
                  (to_dict (robot_state w)) (Some duration)]
  else cleaning_complete_after_write e log duration w
       = (w, Raised StorageError).
Proof.
  unfold cleaning_complete_after_write. unfold_coroutine. cbn.
  destruct (insert_one_ok e); cbn; auto.
Qed.

(** ** The scheduling steps on the segments *)

Lemma step_RequestUntilWrite_returns (s : System) (e : Env) (c : RobotCommand) :
  String.eqb (command c) "stop" && is_cleaning (robot_state (world s)) = false ->
  step s (RequestUntilWrite e c) = step s (Request e c).
Proof.
  intros H. unfold step, exec.
  rewrite (send_robot_command_until_write_returns e c (world s) H).
  destruct (send_robot_command e c (world s)) as [w1 [r|x]]; reflexivity.
Qed.

Lemma step_RequestUntilWrite_stop (s : System) (e : Env) (c : RobotCommand) :
  String.eqb (command c) "stop" && is_cleaning (robot_state (world s)) = true ->
  world (step s (RequestUntilWrite e c))
  = put_robot (set_status idle (set_is_cleaning false (robot_state (world s))))
              (world s)
  /\ sim (step s (RequestUntilWrite e c)) = sim s
  /\ (suspended (step s (RequestUntilWrite e c)) = suspended s
      \/ exists t0 md,
          start_time (robot_state (world s)) = Some t0
          /\ current_mode (robot_state (world s)) = Some md
          /\ suspended (step s (RequestUntilWrite e c))
             = suspended s
               ++ [CleaningLog.mk (uuid4 e) t0 (Some (utcnow e))
                     (Some (Z.quot (utcnow e - t0) 1000000)) md interrupted
                     (progress (robot_state (world s)))]).
Proof.
  intros H. unfold step.
  destruct (send_robot_command_until_write_stop e c (world s) H) as [Hw Hr].
  destruct (send_robot_command_until_write e c (world s)) as [w1 [[r|log]|x]];
    cbn [fst snd world sim suspended] in *; subst w1.
  - contradiction.
  - split; [reflexivity|]. split; [reflexivity|]. right.
    destruct Hr as (Ht & Hm & Hlog).
    exists (CleaningLog.start_time log), (CleaningLog.mode log).
    split; [exact Ht|]. split; [exact Hm|]. now rewrite <- Hlog.
  - split; [reflexivity|]. split; [reflexivity|]. now left.
Qed.

Lemma step_WakeUntilWrite_sleeps (s : System) (e : Env) :
  sim s <> at_loop_head
  \/ is_cleaning (robot_state (world s))
       && negb (Status_eqb (status (robot_state (world s))) paused)
       && negb (progress (robot_state (world s)) <? 100) = false ->
  step s (WakeUntilWrite e) = step s (Wake e).
Proof.
  intros H. unfold step. destruct (sim s) eqn:Hsim; try reflexivity.
  destruct H as [H|H]; [now elim H|].
  rewrite (tick_until_suspended_sleeps e (world s) H).
  destruct (tick_before_sleep e (world s)) as [w1 [[|]|x]]; reflexivity.
Qed.

Lemma step_WakeUntilWrite_closes (s : System) (e : Env) :
  sim s = at_loop_head ->
  is_cleaning (robot_state (world s))
    && negb (Status_eqb (status (robot_state (world s))) paused)
    && negb (progress (robot_state (world s)) <? 100) = true ->
  world (step s (WakeUntilWrite e))
  = put_robot (closed (robot_state (world s))) (world s)
  /\ suspended (step s (WakeUntilWrite e)) = suspended s
  /\ ((exists x, sim (step s (WakeUntilWrite e)) = task_finished x
                  /\ (start_time (robot_state (world s)) = None
                      \/ current_mode (robot_state (world s)) = None))
      \/ exists t0 md,
          start_time (robot_state (world s)) = Some t0
          /\ current_mode (robot_state (world s)) = Some md
          /\ sim (step s (WakeUntilWrite e))
             = in_write
                 (CleaningLog.mk (uuid4 e) t0 (Some (utcnow e))
                    (Some (Z.quot (utcnow e - t0) 1000000)) md completed 100)
                 (Z.quot (utcnow e - t0) 1000000)).
Proof.
  intros Hsim H. unfold step. rewrite Hsim.
  destruct (tick_until_suspended_closes e (world s) H) as [Hw Hr].
  destruct (tick_until_suspended e (world s)) as [w1 [[b|log d]|x]];
    cbn [fst snd world sim suspended] in *; subst w1.
  - contradiction.
  - split; [reflexivity|]. split; [reflexivity|]. right.
    destruct Hr as (Ht & Hm & Hd & Hlog).
    exists (CleaningLog.start_time log), (CleaningLog.mode log).
    split; [exact Ht|]. split; [exact Hm|].
    rewrite <- Hd. now rewrite <- Hlog.
  - split; [reflexivity|]. split; [reflexivity|]. left. exists x.
    split; [reflexivity|]. destruct Hr as [[_ H0]|[_ H0]]; auto.
Qed.

Lemma step_WriteReturns (s : System) (e : Env) (i : nat) (log : CleaningLog.t) :
  nth_error (suspended s) i = Some log ->
  sim (step s (WriteReturns e i)) = sim s
  /\ suspended (step s (WriteReturns e i)) = remove_nth i (suspended s)
  /\ ((insert_one_ok e = true
       /\ robot_state (world (step s (WriteReturns e i)))
          = set_current_mode None
              (set_start_time None (set_progress 0 (robot_state (world s))))
       /\ cleaning_logs (world (step s (WriteReturns e i)))
          = cleaning_logs (world s) ++ [log]
       /\ broadcast_log (world (step s (WriteReturns e i)))
          = broadcast_log (world s)
            ++ [mkMessage info (Some "Cleaning stopped by user")
                  (to_dict (robot_state (world (step s (WriteReturns e i)))))
                  None])
      \/ (insert_one_ok e = false
          /\ world (step s (WriteReturns e i)) = world s)).
Proof.
  intros Hnth. unfold step. rewrite Hnth. cbn [world sim suspended].
  split; [reflexivity|]. split; [reflexivity|]. unfold exec.
  pose proof (send_robot_command_after_write_cases e log (world s)) as H.
  destruct (insert_one_ok e).
  - left. destruct H as (Hrs & Hlogs & Hb). rewrite Hrs.
    repeat split; assumption.
  - right. now rewrite H.
Qed.

Lemma resume_iteration_in_write
      (s : System) (e : Env) (log : CleaningLog.t) (d : Z) :
  sim s = in_write log d ->
  suspended (resume_iteration e s) = suspended s
  /\ ((insert_one_ok e = true
       /\ sim (resume_iteration e s) = at_loop_head
       /\ robot_state (world (resume_iteration e s)) = robot_state (world s)
       /\ cleaning_logs (world (resume_iteration e s))
          = cleaning_logs (world s) ++ [log]
       /\ broadcast_log (world (resume_iteration e s))
          = broadcast_log (world s)
            ++ [mkMessage cleaning_complete
                  (Some "Cleaning cycle completed successfully!")
                  (to_dict (robot_state (world s))) (Some d)])
      \/ (insert_one_ok e = false
          /\ sim (resume_iteration e s) = task_finished StorageError
          /\ world (resume_iteration e s) = world s)).
Proof.
  intros Hsim. unfold resume_iteration. rewrite Hsim.
  pose proof (cleaning_complete_after_write_cases e log d (world s)) as H.
  destruct (insert_one_ok e).
  - destruct H as (Hret & Hrs & Hlogs & Hb).
    destruct (cleaning_complete_after_write e log d (world s)) as [w1 [[]|x]];
      cbn [fst snd world sim suspended] in *; [|discriminate Hret].
    split; [reflexivity|]. left. repeat split; assumption.
  - rewrite H. cbn [world sim suspended]. split; [reflexivity|]. right.
    repeat split.
Qed.

Lemma resume_iteration_in_grace_wait (s : System) (e : Env) :
  sim s = in_grace_wait ->
  resume_iteration e s
  = mkProcess (fst (tick_after_sleep e (world s))) at_loop_head (suspended s).
Proof.
  intros Hsim. unfold resume_iteration. rewrite Hsim. reflexivity.
Qed.

(** ** Invariants of every reachable state *)

Lemma status_for_progress_not_idle (p : Z) : status_for_progress p <> idle.
Proof.
  unfold status_for_progress.
  destruct (p <? 30); [discriminate|].
  destruct (p <? 60); [discriminate|].
  destruct (p <? 90); discriminate.
Qed.

(** Closes the goals left by the case analysis of a coroutine under
    [state_ok]. *)
Ltac close_state_ok :=
  repeat match goal with
         | H : _ && _ = true |- _ => apply andb_prop in H; destruct H
         | H : (_ <? _) = true |- _ => apply Z.ltb_lt in H
         | H : (_ <? _) = false |- _ => apply Z.ltb_ge in H
         end;
  repeat split;
  try lia;
  try (intros; discriminate);
  try (intros; apply status_for_progress_not_idle);
  try (intros; congruence);
  try match goal with
      | Hk : progress _ = ?k + ?k |- exists _, _ + 2 = _ =>
          exists (k + 1); lia
      | |- exists _, 0 = _ => exists 0; reflexivity
      | |- exists _, 100 = _ => exists 50; reflexivity
      | Hk : progress _ = ?k + ?k |- exists _, progress _ = _ =>
          exists k; exact Hk
      end;
  try tauto;
  try (intuition congruence).

Lemma send_robot_command_state_ok (e : Env) (c : RobotCommand) (w : World) :
  state_ok (robot_state w) ->
  state_ok (robot_state (fst (send_robot_command e c w))).
Proof.
  unfold state_ok. intros (Hr & [k Hk] & Hiff).
  unfold send_robot_command. unfold_coroutine. cbn.
  split_branches; cbn; close_state_ok.
Qed.

Lemma tick_before_sleep_state_ok (e : Env) (w : World) :
  state_ok (robot_state w) ->
  state_ok (robot_state (fst (tick_before_sleep e w))).
Proof.
  unfold state_ok. intros (Hr & [k Hk] & Hiff).
  unfold tick_before_sleep. unfold_coroutine. cbn.
  split_branches; cbn; close_state_ok.
Qed.

Lemma tick_after_sleep_state_ok (e : Env) (w : World) :
  state_ok (robot_state w) ->
  state_ok (robot_state (fst (tick_after_sleep e w))).
Proof.
  unfold state_ok. intros H.
  unfold tick_after_sleep. unfold_coroutine. cbn. exact H.
Qed.

(** A property of the robot state that every segment of every coroutine
    keeps is kept by every scheduling step. *)
Lemma step_robot_state (P : RobotState -> Prop) :
  (forall e c w, P (robot_state w) ->
                 P (robot_state (fst (send_robot_command e c w)))) ->
  (forall e w, P (robot_state w) ->
               P (robot_state (fst (tick_before_sleep e w)))) ->
  (forall e w, P (robot_state w) ->
               P (robot_state (fst (tick_after_sleep e w)))) ->
  (forall rs, P rs -> P (set_status idle (set_is_cleaning false rs))) ->
  (forall rs, P rs ->
              P (set_current_mode None
                   (set_start_time None (set_progress 0 rs)))) ->
  (forall rs, P rs -> P (closed rs)) ->
  forall (s : System) (ev : Event),
    P (robot_state (world s)) -> P (robot_state (world (step s ev))).
Proof.
  intros Hcmd Hbefore Hafter Hbegin Hend Hclose s ev Hinv.
  assert (Hresume : forall e, P (robot_state (world (resume_iteration e s)))).
  { intros e. destruct (sim s) as [| |log d|x] eqn:Hsim.
    - unfold resume_iteration. now rewrite Hsim.
    - rewrite (resume_iteration_in_grace_wait s e Hsim). now apply Hafter.
    - destruct (resume_iteration_in_write s e log d Hsim)
        as (_ & [(_ & _ & Hrs & _)|(_ & _ & Hw)]).
      + now rewrite Hrs.
      + now rewrite Hw.
    - unfold resume_iteration. now rewrite Hsim. }
  assert (Hwake : forall e, P (robot_state (world (step s (Wake e))))).
  { intros e. unfold step. destruct (sim s) eqn:Hsim;
      try (specialize (Hresume e); unfold resume_iteration in *;
           rewrite Hsim in *; exact Hresume).
    pose proof (Hbefore e (world s) Hinv) as H.
    destruct (tick_before_sleep e (world s)) as [w1 [[]|x]]; exact H. }
  destruct ev as [e c|e|e c|e i|e].
  - now apply Hcmd.
  - apply Hwake.
  - destruct (String.eqb (command c) "stop"
              && is_cleaning (robot_state (world s))) eqn:Hstop.
    + destruct (step_RequestUntilWrite_stop s e c Hstop) as (Hw & _).
      rewrite Hw. now apply Hbegin.
    + rewrite (step_RequestUntilWrite_returns s e c Hstop). now apply Hcmd.
  - destruct (nth_error (suspended s) i) as [log|] eqn:Hnth.
    + destruct (step_WriteReturns s e i log Hnth)
        as (_ & _ & [(_ & Hrs & _)|(_ & Hw)]).
      * rewrite Hrs. now apply Hend.
      * now rewrite Hw.
    + unfold step. now rewrite Hnth.
  - destruct (sim s) eqn:Hsim;
      try (rewrite step_WakeUntilWrite_sleeps;
           [apply Hwake | left; rewrite Hsim; discriminate]).
    destruct (is_cleaning (robot_state (world s))
              && negb (Status_eqb (status (robot_state (world s))) paused)
              && negb (progress (robot_state (world s)) <? 100)) eqn:Hclosing.
    + destruct (step_WakeUntilWrite_closes s e Hsim Hclosing) as (Hw & _).
      rewrite Hw. now apply Hclose.
    + rewrite step_WakeUntilWrite_sleeps; [apply Hwake | now right].
Qed.

Lemma step_state_ok (s : System) (ev : Event) :
  state_ok (robot_state (world s)) ->
  state_ok (robot_state (world (step s ev))).
Proof.
  apply (step_robot_state state_ok).
  - apply send_robot_command_state_ok.
  - apply tick_before_sleep_state_ok.
  - apply tick_after_sleep_state_ok.
  - unfold state_ok. intros rs (Hr & Hk & Hiff). cbn.
    split; [exact Hr|]. split; [exact Hk|].
    split; intros H; [discriminate H | now elim H].
  - unfold state_ok. intros rs (Hr & Hk & Hiff). cbn.
    split; [lia|]. split; [now exists 0 | exact Hiff].
  - unfold state_ok. intros rs (Hr & Hk & Hiff). cbn.
    split; [lia|]. split; [now exists 50|].
    split; intros H; [discriminate H | now elim H].
Qed.

Lemma run_state_ok (evs : list Event) :
  forall s : System,
    state_ok (robot_state (world s)) ->
    state_ok (robot_state (world (run evs s))).
Proof.
  induction evs as [|ev rest IH]; intros s Hinv; [exact Hinv|].
  change (run (ev :: rest) s) with (run rest (step s ev)).
  apply IH. now apply step_state_ok.
Qed.

(** In every state the process reaches from startup, through any requests
    (failing or not) interleaved with the simulation task at any of its
    sleeps, the progress is an even number between 0 and 100, and the robot
    is cleaning exactly when its status is not idle. *)
Theorem reachable_progress_and_status (evs : list Event) :
  let rs := robot_state (world (run evs System_init)) in
  0 <= progress rs <= 100
  /\ Z.even (progress rs) = true
  /\ (is_cleaning rs = true <-> status rs <> idle).
Proof.
  intros rs.
  assert (H0 : state_ok (robot_state (world System_init))).
  { unfold state_ok. cbn. split; [lia|]. split; [now exists 0|].
    split; intros H; [discriminate H | now elim H]. }
  destruct (run_state_ok evs System_init H0) as (Hr & [k Hk] & Hiff).
  fold rs in Hr, Hk, Hiff. clearbody rs.
  split; [exact Hr|]. split; [|exact Hiff].
  rewrite Hk. replace (k + k) with (2 * k) by lia.
  rewrite Z.even_mul. reflexivity.
Qed.

Lemma send_robot_command_obstacle_detected
      (e : Env) (c : RobotCommand) (w : World) :
  obstacle_detected (robot_state (fst (send_robot_command e c w)))
  = obstacle_detected (robot_state w).
Proof.
  unfold send_robot_command. unfold_coroutine. cbn.
  split_branches; reflexivity.
Qed.

Lemma tick_before_sleep_obstacle_detected (e : Env) (w : World) :
  match tick_before_sleep e w with
  | (_, Returned true) => True
  | (w', _) =>
      obstacle_detected (robot_state w') = obstacle_detected (robot_state w)
  end.
Proof.
  unfold tick_before_sleep. unfold_coroutine. cbn.
  split_branches; cbn; trivial.
Qed.

Lemma step_flag_only_in_grace_wait (s : System) (ev : Event) :
  flag_only_in_grace_wait s -> flag_only_in_grace_wait (step s ev).
Proof.
  unfold flag_only_in_grace_wait. intros Hinv.
  assert (Hwake : forall e,
             obstacle_detected (robot_state (world (step s (Wake e)))) = true ->
             sim (step s (Wake e)) = in_grace_wait).
  { intros e. unfold step. destruct (sim s) as [| |log d|x] eqn:Hsim.
    - pose proof (tick_before_sleep_obstacle_detected e (world s)) as H.
      destruct (tick_before_sleep e (world s)) as [w1 [[|]|x]];
        cbn [world sim]; trivial;
        intros Hobs; rewrite H in Hobs; specialize (Hinv Hobs);
        discriminate Hinv.
    - rewrite (resume_iteration_in_grace_wait s e Hsim). cbn [world sim].
      unfold tick_after_sleep. unfold_coroutine. cbn. discriminate.
    - destruct (resume_iteration_in_write s e log d Hsim)
        as (_ & [(_ & _ & Hrs & _)|(_ & _ & Hw)]);
        intros Hobs; [rewrite Hrs in Hobs | rewrite Hw in Hobs];
        specialize (Hinv Hobs); discriminate Hinv.
    - unfold resume_iteration. rewrite Hsim.
      intros Hobs. specialize (Hinv Hobs). discriminate Hinv. }
  destruct ev as [e c|e|e c|e i|e].
  - unfold step. cbn [world sim]. unfold exec.
    now rewrite send_robot_command_obstacle_detected.
  - apply Hwake.
  - destruct (String.eqb (command c) "stop"
              && is_cleaning (robot_state (world s))) eqn:Hstop.
    + destruct (step_RequestUntilWrite_stop s e c Hstop) as (Hw & Hsim & _).
      rewrite Hw, Hsim. exact Hinv.
    + rewrite (step_RequestUntilWrite_returns s e c Hstop).
      unfold step. cbn [world sim]. unfold exec.
      now rewrite send_robot_command_obstacle_detected.
  - destruct (nth_error (suspended s) i) as [log|] eqn:Hnth.
    + destruct (step_WriteReturns s e i log Hnth)
        as (Hsim & _ & [(_ & Hrs & _)|(_ & Hw)]); rewrite Hsim.
      * rewrite Hrs. exact Hinv.
      * rewrite Hw. exact Hinv.
    + unfold step. rewrite Hnth. exact Hinv.
  - destruct (sim s) eqn:Hsim;
      try (rewrite step_WakeUntilWrite_sleeps;
           [apply Hwake | left; rewrite Hsim; discriminate]).
    destruct (is_cleaning (robot_state (world s))
              && negb (Status_eqb (status (robot_state (world s))) paused)
              && negb (progress (robot_state (world s)) <? 100)) eqn:Hclosing.
    + destruct (step_WakeUntilWrite_closes s e Hsim Hclosing) as (Hw & _ & _).
      rewrite Hw. cbn. intros Hobs. specialize (Hinv Hobs).
      discriminate Hinv.
    + rewrite step_WakeUntilWrite_sleeps; [apply Hwake | now right].
Qed.

(** In every state the process reaches from startup, [obstacle_detected]
    is true only while the simulation task is suspended in the grace wait of
    an obstacle pause; whenever the task is at the head of its loop or has
    ended, the flag is false. *)
Theorem reachable_obstacle_flag (evs : list Event) :
  let s := run evs System_init in
  obstacle_detected (robot_state (world s)) = true -> sim s = in_grace_wait.
Proof.
  intros s. subst s.
  assert (H0 : flag_only_in_grace_wait System_init)
    by (intros H; discriminate H).
  revert H0. generalize System_init.
  induction evs as [|ev rest IH]; intros s0 H0; [exact H0|].
  change (run (ev :: rest) s0) with (run rest (step s0 ev)).
  apply IH. now apply step_flag_only_in_grace_wait.
Qed.

Lemma reachable_progress_and_status_witness :
  status (robot_state (world system_in_grace_wait)) <> idle.
Proof.
  destruct (reachable_progress_and_status
              [Request (env_calm 0) cmd_start; Wake (env_obstacle 5000000)])
    as (_ & _ & Hiff).
  apply Hiff. vm_compute. reflexivity.
Defined.

Lemma reachable_obstacle_flag_witness :
  sim system_in_grace_wait = in_grace_wait.
Proof.
  apply (reachable_obstacle_flag
           [Request (env_calm 0) cmd_start; Wake (env_obstacle 5000000)]).
  vm_compute. reflexivity.
Defined.

(** ** The session log *)

(** Closes the goals on the records a coroutine appends. *)
Ltac close_appended :=
  first
    [ exists (@nil CleaningLog.t);
      split; [symmetry; apply app_nil_r|];
      split; [constructor | cbn; lia]
    | eexists [_];
      split; [reflexivity|];
      split; [|cbn; lia];
      constructor; [|constructor];
      unfold log_ok; cbn;
      split; [eexists; split; reflexivity|];
      split; [lia|];
      first [reflexivity | intros Hx; discriminate Hx] ].

Lemma send_robot_command_appends (e : Env) (c : RobotCommand) (w : World) :
  state_ok (robot_state w) ->
  exists l,
    cleaning_logs (fst (send_robot_command e c w)) = cleaning_logs w ++ l
    /\ Forall log_ok l /\ (List.length l <= 1)%nat.
Proof.
  intros (Hr & _ & _).
  unfold send_robot_command. unfold_coroutine. cbn.
  split_branches; cbn; close_appended.
Qed.

Lemma tick_before_sleep_appends (e : Env) (w : World) :
  exists l,
    cleaning_logs (fst (tick_before_sleep e w)) = cleaning_logs w ++ l
    /\ Forall log_ok l /\ (List.length l <= 1)%nat.
Proof.
  unfold tick_before_sleep. unfold_coroutine. cbn.
  split_branches; cbn; close_appended.
Qed.

Lemma remove_nth_Forall (P : CleaningLog.t -> Prop) (i : nat)
      (l : list CleaningLog.t) :
  Forall P l -> Forall P (remove_nth i l).
Proof.
  revert i. induction l as [|x rest IH]; intros i H; [destruct i; exact H|].
  inversion H as [|? ? Hx Hrest]; subst.
  destruct i as [|j]; cbn; [exact Hrest|].
  constructor; [exact Hx | now apply IH].
Qed.

Lemma remove_nth_length (i : nat) (l : list CleaningLog.t)
      (log : CleaningLog.t) :
  nth_error l i = Some log ->
  S (List.length (remove_nth i l)) = List.length l.
Proof.
  revert i. induction l as [|x rest IH]; intros i H.
  - destruct i; discriminate H.
  - destruct i as [|j]; cbn in *; [reflexivity|].
    now rewrite (IH j H).
Qed.

Lemma step_appends (s : System) (ev : Event) :
  state_ok (robot_state (world s)) ->
  pending_ok s ->
  (exists l,
      cleaning_logs (world (step s ev)) = cleaning_logs (world s) ++ l
      /\ Forall log_ok l)
  /\ pending_ok (step s ev).
Proof.
  intros Hinv [Hsus Hsim].
  assert (Hnone : forall w : World,
             cleaning_logs w = cleaning_logs (world s) ->
             exists l, cleaning_logs w = cleaning_logs (world s) ++ l
                       /\ Forall log_ok l).
  { intros w Hw. exists []. split; [|constructor].
    rewrite Hw. symmetry. apply app_nil_r. }
  assert (Hone : forall (w : World) (log : CleaningLog.t),
             log_ok log ->
             cleaning_logs w = cleaning_logs (world s) ++ [log] ->
             exists l, cleaning_logs w = cleaning_logs (world s) ++ l
                       /\ Forall log_ok l).
  { intros w log Hok Hw. exists [log]. split; [exact Hw|].
    constructor; [exact Hok | constructor]. }
  assert (Hreq : forall e c,
             (exists l,
                 cleaning_logs (world (step s (Request e c)))
                 = cleaning_logs (world s) ++ l /\ Forall log_ok l)
             /\ pending_ok (step s (Request e c))).
  { intros e c. split; [|split; assumption].
    destruct (send_robot_command_appends e c (world s) Hinv)
      as (l & Hl & Hok & _).
    exists l. split; [exact Hl | exact Hok]. }
  assert (Hwake : forall e,
             (exists l,
                 cleaning_logs (world (step s (Wake e)))
                 = cleaning_logs (world s) ++ l /\ Forall log_ok l)
             /\ pending_ok (step s (Wake e))).
  { intros e. unfold step, pending_ok.
    destruct (sim s) as [| |log d|x] eqn:Hs.
    - destruct (tick_before_sleep_appends e (world s)) as (l & Hl & Hok & _).
      destruct (tick_before_sleep e (world s)) as [w1 [[]|x]];
        cbn [world sim suspended fst] in *;
        (split; [exists l; split; assumption | split; [exact Hsus|exact I]]).
    - rewrite (resume_iteration_in_grace_wait s e Hs).
      cbn [world sim suspended].
      split; [|split; [exact Hsus|exact I]].
      apply Hnone. unfold tick_after_sleep. unfold_coroutine. reflexivity.
    - destruct (resume_iteration_in_write s e log d Hs)
        as (Hsame & [(_ & Hsim' & _ & Hlogs & _)|(_ & Hsim' & Hw)]);
        rewrite Hsame, Hsim'.
      + split; [|split; [exact Hsus|exact I]]. now apply (Hone _ log).
      + split; [|split; [exact Hsus|exact I]]. apply Hnone. now rewrite Hw.
    - unfold resume_iteration. rewrite Hs.
      split; [now apply Hnone | split; [exact Hsus | now rewrite Hs]]. }
  destruct ev as [e c|e|e c|e i|e].
  - apply Hreq.
  - apply Hwake.
  - destruct (String.eqb (command c) "stop"
              && is_cleaning (robot_state (world s))) eqn:Hstop.
    + destruct (step_RequestUntilWrite_stop s e c Hstop)
        as (Hw & Hsim' & Hpend).
      split; [apply Hnone; now rewrite Hw|].
      unfold pending_ok. rewrite Hsim'. split; [|exact Hsim].
      destruct Hpend as [Hp|(t0 & md & _ & _ & Hp)]; rewrite Hp;
        [exact Hsus|].
      apply Forall_app. split; [exact Hsus|].
      constructor; [|constructor].
      destruct Hinv as (Hr & _). unfold log_ok. cbn.
      split; [eexists; split; reflexivity|].
      split; [exact Hr | intros Hx; discriminate Hx].
    + rewrite (step_RequestUntilWrite_returns s e c Hstop). apply Hreq.
  - destruct (nth_error (suspended s) i) as [log|] eqn:Hnth.
    + destruct (step_WriteReturns s e i log Hnth)
        as (Hsim' & Hsus' & [(_ & _ & Hlogs & _)|(_ & Hw)]).
      * split.
        -- apply (Hone _ log); [|exact Hlogs].
           rewrite Forall_forall in Hsus. apply Hsus.
           eapply nth_error_In. exact Hnth.
        -- unfold pending_ok. rewrite Hsim', Hsus'.
           split; [now apply remove_nth_Forall | exact Hsim].
      * split; [apply Hnone; now rewrite Hw|].
        unfold pending_ok. rewrite Hsim', Hsus'.
        split; [now apply remove_nth_Forall | exact Hsim].
    + unfold step. rewrite Hnth.
      split; [now apply Hnone | split; assumption].
  - destruct (sim s) eqn:Hs;
      try (rewrite step_WakeUntilWrite_sleeps;
           [apply Hwake | left; rewrite Hs; discriminate]).
    destruct (is_cleaning (robot_state (world s))
              && negb (Status_eqb (status (robot_state (world s))) paused)
              && negb (progress (robot_state (world s)) <? 100)) eqn:Hclosing.
    + destruct (step_WakeUntilWrite_closes s e Hs Hclosing)
        as (Hw & Hsus' & Hsim').
      split; [apply Hnone; now rewrite Hw|].
      unfold pending_ok. rewrite Hsus'. split; [exact Hsus|].
      destruct Hsim' as [[x [Hx _]]|(t0 & md & _ & _ & Hx)]; rewrite Hx;
        [exact I|].
      unfold log_ok. cbn.
      split; [eexists; split; reflexivity|].
      split; [lia | reflexivity].
    + rewrite step_WakeUntilWrite_sleeps; [apply Hwake | now right].
Qed.

(** The log only grows, and only by records the program closed: after any
    events from startup, and then any further events, the log is the earlier
    log followed by new records, each with its end time, the whole seconds
    from start to end as duration, a progress between 0 and 100, and
    progress 100 if its status is [completed]. *)
Theorem cleaning_logs_append_only (before after : list Event) :
  let s := run before System_init in
  exists l,
    cleaning_logs (world (run after s)) = cleaning_logs (world s) ++ l
    /\ Forall log_ok l.
Proof.
  intros s.
  assert (Hinv : state_ok (robot_state (world s)) /\ pending_ok s).
  { subst s.
    assert (H0 : state_ok (robot_state (world System_init))
                 /\ pending_ok System_init).
    { split; [|split; [constructor | exact I]].
      unfold state_ok. cbn. split; [lia|]. split; [now exists 0|].
      split; intros H; [discriminate H | now elim H]. }
    revert H0. generalize System_init.
    induction before as [|ev rest IH]; intros s0 H0; [exact H0|].
    change (run (ev :: rest) s0) with (run rest (step s0 ev)).
    apply IH. destruct H0 as [Hst Hp]. split.
    - now apply step_state_ok.
    - now apply step_appends. }
  clearbody s. revert s Hinv.
  induction after as [|ev rest IH]; intros s [Hinv Hp].
  - exists []. split; [|constructor]. symmetry. apply app_nil_r.
  - change (run (ev :: rest) s) with (run rest (step s ev)).
    destruct (step_appends s ev Hinv Hp) as ((l1 & Hl1 & Hok1) & Hp1).
    destruct (IH (step s ev) (conj (step_state_ok s ev Hinv) Hp1))
      as (l2 & Hl2 & Hok2).
    exists (l1 ++ l2). split.
    + rewrite Hl2, Hl1. now rewrite app_assoc.
    + apply Forall_app. split; assumption.
Qed.

Lemma send_robot_command_sessions (e : Env) (c : RobotCommand) (w : World) :
  (List.length (cleaning_logs (fst (send_robot_command e c w)))
   + open_sessions (robot_state (fst (send_robot_command e c w)))
   <= List.length (cleaning_logs w) + open_sessions (robot_state w)
      + (if String.eqb (command c) "start" then 1 else 0))%nat.
Proof.
  unfold open_sessions, send_robot_command. unfold_coroutine. cbn.
  split_branches; cbn; rewrite ?length_app; cbn; try lia;
    repeat match goal with
           | H : is_cleaning _ = _ |- _ => progress cbn in H
           end;
    congruence.
Qed.

Lemma tick_before_sleep_sessions (e : Env) (w : World) :
  (List.length (cleaning_logs (fst (tick_before_sleep e w)))
   + open_sessions (robot_state (fst (tick_before_sleep e w)))
   <= List.length (cleaning_logs w) + open_sessions (robot_state w))%nat.
Proof.
  unfold open_sessions, tick_before_sleep. unfold_coroutine. cbn.
  split_branches; cbn; rewrite ?length_app; cbn;
    repeat match goal with
           | H : _ && _ = true |- _ => apply andb_prop in H; destruct H
           | H : is_cleaning _ = _ |- _ => progress cbn in H
           end;
    try lia; congruence.
Qed.

Lemma count_starts_cons (ev : Event) (rest : list Event) :
  count_starts (ev :: rest) = (count_starts [ev] + count_starts rest)%nat.
Proof. destruct ev; cbn; lia. Qed.

Lemma step_sessions (s : System) (ev : Event) :
  (List.length (cleaning_logs (world (step s ev)))
   + open_sessions (robot_state (world (step s ev)))
   + pending_writes (step s ev)
   <= List.length (cleaning_logs (world s))
      + open_sessions (robot_state (world s))
      + pending_writes s
      + count_starts [ev])%nat.
Proof.
  assert (Hreq : forall e c,
             (List.length (cleaning_logs (world (step s (Request e c))))
              + open_sessions (robot_state (world (step s (Request e c))))
              + pending_writes (step s (Request e c))
              <= List.length (cleaning_logs (world s))
                 + open_sessions (robot_state (world s))
                 + pending_writes s
                 + count_starts [Request e c])%nat).
  { intros e c. unfold step, pending_writes. cbn [world sim suspended].
    unfold exec. cbn [count_starts].
    pose proof (send_robot_command_sessions e c (world s)). lia. }
  assert (Hwake : forall e,
             (List.length (cleaning_logs (world (step s (Wake e))))
              + open_sessions (robot_state (world (step s (Wake e))))
              + pending_writes (step s (Wake e))
              <= List.length (cleaning_logs (world s))
                 + open_sessions (robot_state (world s))
                 + pending_writes s)%nat).
  { intros e. unfold step, pending_writes.
    destruct (sim s) as [| |log d|x] eqn:Hs.
    - pose proof (tick_before_sleep_sessions e (world s)) as H.
      destruct (tick_before_sleep e (world s)) as [w1 [[]|x]];
        cbn [world sim suspended fst] in *; lia.
    - rewrite (resume_iteration_in_grace_wait s e Hs).
      cbn [world sim suspended].
      unfold tick_after_sleep, open_sessions. unfold_coroutine. cbn. lia.
    - destruct (resume_iteration_in_write s e log d Hs)
        as (Hsame & [(_ & Hsim' & Hrs & Hlogs & _)|(_ & Hsim' & Hw)]);
        rewrite Hsame, Hsim'.
      + rewrite Hrs, Hlogs, length_app. cbn. lia.
      + rewrite Hw. lia.
    - unfold resume_iteration. rewrite Hs. rewrite Hs. lia. }
  destruct ev as [e c|e|e c|e i|e].
  - apply Hreq.
  - specialize (Hwake e). cbn [count_starts]. lia.
  - destruct (String.eqb (command c) "stop"
              && is_cleaning (robot_state (world s))) eqn:Hstop.
    + destruct (step_RequestUntilWrite_stop s e c Hstop)
        as (Hw & Hsim' & Hpend).
      apply andb_prop in Hstop. destruct Hstop as [_ Hc].
      unfold pending_writes. rewrite Hw, Hsim'.
      unfold open_sessions. cbn [robot_state put_robot cleaning_logs
                                 set_status set_is_cleaning is_cleaning].
      rewrite Hc.
      destruct Hpend as [Hp|(t0 & md & _ & _ & Hp)]; rewrite Hp;
        rewrite ?length_app; cbn [List.length]; lia.
    + rewrite (step_RequestUntilWrite_returns s e c Hstop).
      specialize (Hreq e c). cbn [count_starts] in *. lia.
  - cbn [count_starts].
    destruct (nth_error (suspended s) i) as [log|] eqn:Hnth.
    + pose proof (remove_nth_length i (suspended s) log Hnth) as Hlen.
      destruct (step_WriteReturns s e i log Hnth)
        as (Hsim' & Hsus' & [(_ & Hrs & Hlogs & _)|(_ & Hw)]);
        unfold pending_writes; rewrite Hsim', Hsus'.
      * rewrite Hrs, Hlogs, length_app. unfold open_sessions. cbn. lia.
      * rewrite Hw. lia.
    + unfold step. rewrite Hnth. lia.
  - cbn [count_starts].
    destruct (sim s) eqn:Hs;
      try (rewrite step_WakeUntilWrite_sleeps;
           [specialize (Hwake e); lia | left; rewrite Hs; discriminate]).
    destruct (is_cleaning (robot_state (world s))
              && negb (Status_eqb (status (robot_state (world s))) paused)
              && negb (progress (robot_state (world s)) <? 100)) eqn:Hclosing.
    + destruct (step_WakeUntilWrite_closes s e Hs Hclosing)
        as (Hw & Hsus' & Hsim').
      apply andb_prop in Hclosing. destruct Hclosing as [Hclosing _].
      apply andb_prop in Hclosing. destruct Hclosing as [Hc _].
      unfold pending_writes. rewrite Hw, Hsus', Hs.
      unfold open_sessions. cbn [robot_state put_robot cleaning_logs closed
                                 is_cleaning].
      rewrite Hc.
      destruct Hsim' as [[x [Hx _]]|(t0 & md & _ & _ & Hx)]; rewrite Hx; lia.
    + rewrite step_WakeUntilWrite_sleeps; [|now right].
      specialize (Hwake e). lia.
Qed.

Lemma run_sessions (evs : list Event) :
  forall s : System,
    (List.length (cleaning_logs (world (run evs s)))
     + open_sessions (robot_state (world (run evs s)))
     + pending_writes (run evs s)
     <= List.length (cleaning_logs (world s))
        + open_sessions (robot_state (world s))
        + pending_writes s
        + count_starts evs)%nat.
Proof.
  induction evs as [|ev rest IH]; intros s.
  - cbn. lia.
  - change (run (ev :: rest) s) with (run rest (step s ev)).
    rewrite count_starts_cons.
    pose proof (IH (step s ev)). pose proof (step_sessions s ev). lia.
Qed.

(** No session is logged twice: after any events from startup, the number
    of records in the log, plus one if a session is still open, is at most
    the number of [start] requests received. *)
Theorem at_most_one_record_per_start (evs : list Event) :
  let w := world (run evs System_init) in
  (List.length (cleaning_logs w) + open_sessions (robot_state w)
   <= count_starts evs)%nat.
Proof.
  intros w. subst w.
  pose proof (run_sessions evs System_init) as H.
  change (pending_writes System_init) with 0%nat in H.
  change (cleaning_logs (world System_init)) with (@nil CleaningLog.t) in H.
  change (open_sessions (robot_state (world System_init))) with 0%nat in H.
  cbn [List.length] in H. lia.
Qed.

(** ** Pause, resume and the next iteration *)

(** A user pause followed by a resume, on a robot that is cleaning, not
    paused and without a stale [pause_reason], leaves every attribute as it
    was except [status], which is mopping whatever the phase was.  The next
    iteration of the loop then leaves the robot in exactly the state it
    would have reached without the pause: the phase is derived from the
    progress again. *)
Theorem pause_resume_then_tick
        (e1 e2 e : Env) (m1 m2 : option string) (w : World) :
  is_cleaning (robot_state w) = true ->
  status (robot_state w) <> paused ->
  pause_reason (robot_state w) = None ->
  let w1 := fst (send_robot_command e1 (mkRobotCommand "pause" m1) w) in
  let w2 := fst (send_robot_command e2 (mkRobotCommand "resume" m2) w1) in
  status (robot_state w1) = paused
  /\ pause_reason (robot_state w1) = Some PauseReason.user_request
  /\ progress (robot_state w1) = progress (robot_state w)
  /\ robot_state w2 = set_status mopping (robot_state w)
  /\ cleaning_logs w2 = cleaning_logs w
  /\ robot_state (fst (tick e w2)) = robot_state (fst (tick e w)).
Proof.
  intros Hc Hp Hr w1 w2. subst w2 w1. apply Status_eqb_paused in Hp.
  unfold send_robot_command. unfold_coroutine. cbn.
  rewrite Hc, Hp. cbn. rewrite Hc. cbn.
  unfold set_pause_reason, set_status. cbn. rewrite Hr, Hc.
  repeat split.
  unfold tick, tick_before_sleep, tick_after_sleep. unfold_coroutine. cbn.
  rewrite Hc, Hp. cbn.
  split_branches;
    unfold set_pause_reason, set_obstacle_detected, set_status,
      set_progress, set_is_cleaning;
    cbn; rewrite ?Hc, ?Hr; first [reflexivity | congruence].
Qed.

Lemma pause_resume_then_tick_witness :
  robot_state
    (fst (tick (env_calm 255000000)
            (fst (send_robot_command (env_calm 2) cmd_resume
                    (fst (send_robot_command (env_calm 1) cmd_pause
                                             world_started))))))
  = robot_state (fst (tick (env_calm 255000000) world_started)).
Proof.
  assert (Hnp : status (robot_state world_started) <> paused)
    by (vm_compute; discriminate).
  destruct (pause_resume_then_tick
              (env_calm 1) (env_calm 2) (env_calm 255000000)
              default_mode default_mode world_started
              eq_refl Hnp eq_refl) as (_ & _ & _ & _ & _ & Htick).
  exact Htick.
Defined.

(** ** A whole session *)

Lemma robot_simulation_advances (envs : list Env) :
  forall w : World,
    is_cleaning (robot_state w) = true ->
    status (robot_state w) = status_for_progress (progress (robot_state w)) ->
    progress (robot_state w) + 2 * Z.of_nat (List.length envs) <= 100 ->
    Forall (fun e => random_below_tenth e = false) envs ->
    snd (robot_simulation envs w) = Returned tt
    /\ cleaning_logs (fst (robot_simulation envs w)) = cleaning_logs w
    /\ robot_state (fst (robot_simulation envs w))
       = mkRobotState
           (status_for_progress
              (progress (robot_state w) + 2 * Z.of_nat (List.length envs)))
           (progress (robot_state w) + 2 * Z.of_nat (List.length envs))
           true (obstacle_detected (robot_state w))
           (start_time (robot_state w)) (current_mode (robot_state w))
           (pause_reason (robot_state w)).
Proof.
  induction envs as [|e rest IH]; intros w Hc Hst Hle Hcalm.
  - cbn [List.length Z.of_nat]. rewrite Z.mul_0_r, Z.add_0_r.
    cbn [robot_simulation ret fst snd].
    split; [reflexivity|]. split; [reflexivity|].
    destruct (robot_state w) as [st p c o t md r]. cbn in *.
    now rewrite Hc, Hst.
  - inversion Hcalm as [|? ? He Hrest]; subst.
    change (List.length (e :: rest)) with (S (List.length rest)) in *.
    rewrite Nat2Z.inj_succ in *.
    assert (Hp : Status_eqb (status (robot_state w)) paused = false)
      by (rewrite Hst; apply status_for_progress_not_paused).
    assert (Hlt : progress (robot_state w) < 100) by lia.
    assert (Hroll : random_below_tenth e
                    && negb (obstacle_detected (robot_state w)) = false)
      by now rewrite He.
    change (robot_simulation (e :: rest) w)
      with (bind (tick e) (fun _ => robot_simulation rest) w).
    unfold bind. rewrite (tick_advance e w Hc Hp Hlt Hroll).
    set (w1 := put_robot (advanced (robot_state w)) w).
    set (msg := mkMessage status_update None
                          (to_dict (advanced (robot_state w))) None).
    pose proof (broadcast_robot_state e msg w1) as Hrs.
    pose proof (broadcast_cleaning_logs e msg w1) as Hlogs.
    destruct (broadcast e msg w1) as [w2 r2] eqn:Hb.
    pose proof (broadcast_returns e msg w1) as Hret. rewrite Hb in Hret.
    cbn [fst snd] in Hrs, Hlogs, Hret. subst r2.
    assert (Hrs2 : robot_state w2 = advanced (robot_state w))
      by (rewrite Hrs; reflexivity).
    destruct (IH w2) as (Hr & Hl & Hs); try assumption.
    + rewrite Hrs2. exact Hc.
    + rewrite Hrs2. reflexivity.
    + rewrite Hrs2. unfold advanced. cbn [progress]. lia.
    + split; [exact Hr|]. split; [now rewrite Hl, Hlogs|].
      rewrite Hs, Hrs2. unfold advanced.
      cbn [progress obstacle_detected start_time current_mode pause_reason].
      replace (progress (robot_state w) + 2
               + 2 * Z.of_nat (List.length rest))
        with (progress (robot_state w)
              + 2 * Z.succ (Z.of_nat (List.length rest))) by lia.
      reflexivity.
Qed.

Lemma robot_simulation_app (l1 l2 : list Env) (w : World) :
  robot_simulation (l1 ++ l2) w
  = bind (robot_simulation l1) (fun _ => robot_simulation l2) w.
Proof.
  revert w. induction l1 as [|e rest IH]; intros w; [reflexivity|].
  cbn [app robot_simulation]. unfold bind.
  destruct (tick e w) as [w1 [[]|x]]; [|reflexivity].
  rewrite IH. reflexivity.
Qed.

Lemma start_world (e : Env) (md : string) (w : World) :
  is_cleaning (robot_state w) = false ->
  fst (send_robot_command e (mkRobotCommand "start" (Some md)) w)
  = fst (broadcast e
           (mkMessage info
              (Some ("Starting " ++ str_replace "_"%char " "%char md
                     ++ " cycle...")%string)
              (to_dict (mkRobotState mopping 0 true
                          (obstacle_detected (robot_state w))
                          (Some (utcnow e)) (Some md)
                          (pause_reason (robot_state w)))) None)
           (put_robot (mkRobotState mopping 0 true
                         (obstacle_detected (robot_state w))
                         (Some (utcnow e)) (Some md)
                         (pause_reason (robot_state w))) w)).
Proof.
  intros Hc. unfold send_robot_command.
  change (String.eqb (command (mkRobotCommand "start" (Some md))) "start")
    with true. cbv iota.
  unfold_to_broadcast. cbn [robot_state put_robot mode]. rewrite Hc.
  cbn [negb]. reflexivity.
Qed.

(** A whole undisturbed session.  [start] with a mode on a robot that is
    not cleaning, then 50 iterations without an obstacle, then one more
    iteration with a database that accepts the write: the loop returns
    normally, the log has gained exactly one record (status [completed],
    progress 100, the mode and the start time of the [start], the whole
    seconds from that start to the last iteration as duration), and the
    robot is idle, not cleaning, at progress 100. *)
Theorem undisturbed_session_logs_one_record
        (e0 : Env) (md : string) (envs : list Env) (e_last : Env) (w : World) :
  is_cleaning (robot_state w) = false ->
  List.length envs = 50%nat ->
  Forall (fun e => random_below_tenth e = false) envs ->
  insert_one_ok e_last = true ->
  let w1 := fst (send_robot_command e0 (mkRobotCommand "start" (Some md)) w) in
  let r := robot_simulation (envs ++ [e_last]) w1 in
  snd r = Returned tt
  /\ cleaning_logs (fst r)
     = cleaning_logs w
       ++ [CleaningLog.mk (uuid4 e_last) (utcnow e0) (Some (utcnow e_last))
             (Some (Z.quot (utcnow e_last - utcnow e0) 1000000)) md
             completed 100]
  /\ robot_state (fst r)
     = mkRobotState idle 100 false (obstacle_detected (robot_state w))
                    (Some (utcnow e0)) (Some md)
                    (pause_reason (robot_state w)).
Proof.
  intros Hc Hlen Hcalm Hdb w1 r. subst r.
  assert (Hrs1 : robot_state w1
                 = mkRobotState mopping 0 true
                     (obstacle_detected (robot_state w))
                     (Some (utcnow e0)) (Some md)
                     (pause_reason (robot_state w))).
  { subst w1. rewrite (start_world e0 md w Hc).
    now rewrite broadcast_robot_state. }
  assert (Hlogs1 : cleaning_logs w1 = cleaning_logs w).
  { subst w1. rewrite (start_world e0 md w Hc).
    now rewrite broadcast_cleaning_logs. }
  clearbody w1.
  destruct (robot_simulation_advances envs w1) as (Hret & Hlogs & Hrs);
    try assumption.
  { now rewrite Hrs1. }
  { now rewrite Hrs1. }
  { rewrite Hrs1, Hlen. cbn. lia. }
  rewrite robot_simulation_app. unfold bind.
  destruct (robot_simulation envs w1) as [w2 r2].
  cbn [fst snd] in Hret, Hlogs, Hrs. subst r2.
  rewrite Hrs1, Hlen in Hrs. cbn in Hrs.
  cbn [robot_simulation]. unfold bind.
  rewrite (tick_close_logged e_last w2 (utcnow e0) md);
    try (rewrite Hrs; cbn; trivial; lia); [|exact Hdb].
  unfold broadcast, ret.
  cbn [fst snd robot_state cleaning_logs].
  rewrite Hlogs, Hlogs1, Hrs.
  repeat split.
Qed.

Lemma undisturbed_session_logs_one_record_witness :
  cleaning_logs
    (fst (robot_simulation (calm_envs 50 ++ [env_calm 255000000])
            (fst (send_robot_command (env_calm 0)
                    (mkRobotCommand "start" (Some "full_clean"))
                    World_init))))
  = [CleaningLog.mk "0a1b" 0 (Some 255000000) (Some 255) "full_clean"
                    completed 100].
Proof.
  destruct (undisturbed_session_logs_one_record
              (env_calm 0) "full_clean" (calm_envs 50) (env_calm 255000000)
              World_init eq_refl eq_refl (calm_envs_calm 50) eq_refl)
    as (_ & Hlog & _).
  exact Hlog.
Defined.

(** ** What the subscribers have last been told *)

(** Closes the goals left by the case analysis of a coroutine when the
    latest broadcast is compared with the robot state. *)
Ltac close_last_broadcast Hso :=
  repeat match goal with
         | H : _ && _ = true |- _ => apply andb_prop in H; destruct H
         end;
  cbn;
  first
    [ assumption
    | rewrite ?rev_unit; reflexivity
    | congruence
    | exfalso; destruct Hso as [? ?];
      [first [reflexivity | assumption] | congruence] ].

Lemma send_robot_command_last_broadcast
      (e : Env) (c : RobotCommand) (w : World) :
  mode c <> None ->
  insert_one_ok e = true ->
  session_open (robot_state w) ->
  last_broadcast_state w = to_dict (robot_state w) ->
  last_broadcast_state (fst (send_robot_command e c w))
  = to_dict (robot_state (fst (send_robot_command e c w))).
Proof.
  unfold session_open, last_broadcast_state. intros Hmode Hdb Hso Hinv.
  unfold send_robot_command. unfold_coroutine. cbn.
  rewrite Hdb.
  split_branches; close_last_broadcast Hso.
Qed.

Lemma tick_before_sleep_last_broadcast (e : Env) (w : World) :
  insert_one_ok e = true ->
  session_open (robot_state w) ->
  last_broadcast_state w = to_dict (robot_state w) ->
  last_broadcast_state (fst (tick_before_sleep e w))
  = to_dict (robot_state (fst (tick_before_sleep e w))).
Proof.
  unfold session_open, last_broadcast_state. intros Hdb Hso Hinv.
  unfold tick_before_sleep. unfold_coroutine. cbn.
  rewrite Hdb.
  split_branches; close_last_broadcast Hso.
Qed.

Lemma tick_after_sleep_last_broadcast (e : Env) (w : World) :
  last_broadcast_state (fst (tick_after_sleep e w))
  = to_dict (robot_state (fst (tick_after_sleep e w))).
Proof.
  unfold last_broadcast_state, tick_after_sleep. unfold_coroutine. cbn.
  rewrite rev_unit. reflexivity.
Qed.

Lemma step_session_open (s : System) (ev : Event) :
  mode_given ev ->
  stop_uninterrupted ev ->
  suspended s = [] ->
  session_open (robot_state (world s)) ->
  suspended (step s ev) = []
  /\ session_open (robot_state (world (step s ev))).
Proof.
  intros Hmode Hun Hsus Hso.
  assert (Hreq : forall e c,
             mode c <> None ->
             suspended (step s (Request e c)) = []
             /\ session_open (robot_state (world (step s (Request e c))))).
  { intros e c Hm. unfold step. cbn [world suspended]. split; [exact Hsus|].
    now apply send_robot_command_session_open. }
  assert (Hwake : forall e,
             suspended (step s (Wake e)) = []
             /\ session_open (robot_state (world (step s (Wake e))))).
  { intros e. unfold step. destruct (sim s) as [| |log d|x] eqn:Hs.
    - pose proof (tick_before_sleep_session_open e (world s) Hso) as H.
      destruct (tick_before_sleep e (world s)) as [w1 [[]|x]];
        cbn [world suspended fst] in *; split; assumption.
    - rewrite (resume_iteration_in_grace_wait s e Hs).
      cbn [world suspended]. split; [exact Hsus|].
      now apply tick_after_sleep_session_open.
    - destruct (resume_iteration_in_write s e log d Hs)
        as (Hsame & [(_ & _ & Hrs & _)|(_ & _ & Hw)]);
        rewrite Hsame; (split; [exact Hsus|]).
      + now rewrite Hrs.
      + now rewrite Hw.
    - unfold resume_iteration. rewrite Hs. split; assumption. }
  destruct ev as [e c|e|e c|e i|e].
  - now apply Hreq.
  - apply Hwake.
  - cbn in Hmode, Hun. apply String.eqb_neq in Hun.
    rewrite step_RequestUntilWrite_returns by now rewrite Hun.
    now apply Hreq.
  - unfold step. rewrite Hsus.
    destruct i; cbn [nth_error]; split; assumption.
  - destruct (sim s) eqn:Hs;
      try (rewrite step_WakeUntilWrite_sleeps;
           [apply Hwake | left; rewrite Hs; discriminate]).
    destruct (is_cleaning (robot_state (world s))
              && negb (Status_eqb (status (robot_state (world s))) paused)
              && negb (progress (robot_state (world s)) <? 100)) eqn:Hclosing.
    + destruct (step_WakeUntilWrite_closes s e Hs Hclosing) as (Hw & Hsus' & _).
      rewrite Hw, Hsus'. split; [exact Hsus|].
      intros Hc. discriminate Hc.
    + rewrite step_WakeUntilWrite_sleeps; [apply Hwake | now right].
Qed.

(** As long as every request carries a mode and no other coroutine is
    served while a [stop] handler is suspended at its write, a robot that
    is cleaning has its start time and its mode: in every state the process
    then reaches from startup, the duration and the [CleaningLog] of [stop]
    and of the closing branch can be computed. *)
Theorem session_open_while_stops_uninterrupted (evs : list Event) :
  Forall mode_given evs ->
  Forall stop_uninterrupted evs ->
  session_open (robot_state (world (run evs System_init))).
Proof.
  intros Hmode Hun.
  assert (H0 : suspended System_init = []
               /\ session_open (robot_state (world System_init))).
  { split; [reflexivity | intros H; discriminate H]. }
  revert H0. generalize System_init.
  induction evs as [|ev rest IH]; intros s [Hsus Hso]; [exact Hso|].
  inversion Hmode as [|? ? Hm Hmrest]; subst.
  inversion Hun as [|? ? Hu Hurest]; subst.
  change (run (ev :: rest) s) with (run rest (step s ev)).
  apply IH; [exact Hmrest | exact Hurest|].
  now apply step_session_open.
Qed.

Lemma session_open_while_stops_uninterrupted_witness :
  session_open
    (robot_state
       (world (run [Request (env_calm 0) cmd_start;
                    WakeUntilWrite (env_obstacle 5000000)] System_init))).
Proof.
  assert (Hmode : Forall mode_given
                    [Request (env_calm 0) cmd_start;
                     WakeUntilWrite (env_obstacle 5000000)]).
  { repeat constructor; cbn; discriminate. }
  assert (Hun : Forall stop_uninterrupted
                  [Request (env_calm 0) cmd_start;
                   WakeUntilWrite (env_obstacle 5000000)])
    by (repeat constructor).
  exact (session_open_while_stops_uninterrupted _ Hmode Hun).
Defined.

Lemma step_last_broadcast (s : System) (ev : Event) :
  event_succeeds ev ->
  stop_uninterrupted ev ->
  suspended s = [] ->
  session_open (robot_state (world s)) ->
  (writing s = false ->
   last_broadcast_state (world s) = to_dict (robot_state (world s))) ->
  writing (step s ev) = false ->
  last_broadcast_state (world (step s ev))
  = to_dict (robot_state (world (step s ev))).
Proof.
  intros Hev Hun Hsus Hso Hinv.
  assert (Hreq : forall e c,
             mode c <> None -> insert_one_ok e = true ->
             writing (step s (Request e c)) = false ->
             last_broadcast_state (world (step s (Request e c)))
             = to_dict (robot_state (world (step s (Request e c))))).
  { intros e c Hm Hdb. unfold step, writing. cbn [world sim]. unfold exec.
    intros Hw. apply send_robot_command_last_broadcast; try assumption.
    now apply Hinv. }
  assert (Hwake : forall e,
             insert_one_ok e = true ->
             writing (step s (Wake e)) = false ->
             last_broadcast_state (world (step s (Wake e)))
             = to_dict (robot_state (world (step s (Wake e))))).
  { intros e Hdb. unfold step.
    destruct (sim s) as [| |log d|x] eqn:Hs.
    - assert (Hcur : last_broadcast_state (world s)
                     = to_dict (robot_state (world s)))
        by (apply Hinv; unfold writing; now rewrite Hs).
      pose proof (tick_before_sleep_last_broadcast e (world s) Hdb Hso Hcur)
        as H.
      destruct (tick_before_sleep e (world s)) as [w1 [[]|x]];
        intros _; exact H.
    - rewrite (resume_iteration_in_grace_wait s e Hs). intros _.
      apply tick_after_sleep_last_broadcast.
    - destruct (resume_iteration_in_write s e log d Hs)
        as (_ & [(_ & _ & Hrs & _ & Hb)|(Hno & _)]);
        [|rewrite Hdb in Hno; discriminate Hno].
      intros _. unfold last_broadcast_state. rewrite Hb, rev_unit, Hrs.
      reflexivity.
    - unfold resume_iteration. rewrite Hs. intros _.
      apply Hinv. unfold writing. now rewrite Hs. }
  destruct ev as [e c|e|e c|e i|e].
  - destruct Hev as [Hm Hdb]. now apply Hreq.
  - now apply Hwake.
  - destruct Hev as [Hm Hdb]. cbn in Hun. apply String.eqb_neq in Hun.
    rewrite step_RequestUntilWrite_returns by now rewrite Hun.
    now apply Hreq.
  - unfold step. rewrite Hsus. destruct i; cbn [nth_error]; exact Hinv.
  - cbn in Hev.
    destruct (sim s) eqn:Hs;
      try (rewrite step_WakeUntilWrite_sleeps;
           [now apply Hwake | left; rewrite Hs; discriminate]).
    destruct (is_cleaning (robot_state (world s))
              && negb (Status_eqb (status (robot_state (world s))) paused)
              && negb (progress (robot_state (world s)) <? 100)) eqn:Hclosing.
    + destruct (step_WakeUntilWrite_closes s e Hs Hclosing)
        as (_ & _ & [[x (Hx & Hwhy)]|(t0 & md & _ & _ & Hx)]).
      * exfalso.
        apply andb_prop in Hclosing. destruct Hclosing as [Hclosing _].
        apply andb_prop in Hclosing. destruct Hclosing as [Hc _].
        destruct (Hso Hc) as [Ht Hmd]. destruct Hwhy; contradiction.
      * unfold writing. rewrite Hx. intros Hf. discriminate Hf.
    + rewrite step_WakeUntilWrite_sleeps; [now apply Hwake | now right].
Qed.

(** As long as the database accepts every write, every request carries a
    mode and no other coroutine is served while a [stop] handler is
    suspended at its write, the subscribers are told of every change: after
    any events from startup, at every moment at which the simulation task
    is not suspended at its own write, the robot state carried by the latest
    broadcast is the current robot state, which is also what
    [get_robot_status] returns (without changing anything). *)
Theorem last_broadcast_is_current_state (evs : list Event) :
  Forall event_succeeds evs ->
  Forall stop_uninterrupted evs ->
  let s := run evs System_init in
  writing s = false ->
  last_broadcast_state (world s) = to_dict (robot_state (world s))
  /\ get_robot_status (world s)
     = (world s, Returned (last_broadcast_state (world s))).
Proof.
  intros Hall Hun s Hw.
  cut (last_broadcast_state (world s) = to_dict (robot_state (world s))).
  { intros H. split; [exact H|]. rewrite H. reflexivity. }
  revert Hw. subst s.
  assert (H0 : suspended System_init = []
               /\ session_open (robot_state (world System_init))
               /\ (writing System_init = false ->
                   last_broadcast_state (world System_init)
                   = to_dict (robot_state (world System_init)))).
  { split; [reflexivity|]. split; [intros H; discriminate H|].
    intros _. reflexivity. }
  revert H0. generalize System_init.
  induction evs as [|ev rest IH]; intros s (Hsus & Hso & Hinv); [exact Hinv|].
  inversion Hall as [|? ? Hev Hrest]; subst.
  inversion Hun as [|? ? Hu Hurest]; subst.
  change (run (ev :: rest) s) with (run rest (step s ev)).
  apply IH; [exact Hrest | exact Hurest|].
  assert (Hmode : mode_given ev).
  { destruct ev; cbn in *; try exact I; now destruct Hev. }
  destruct (step_session_open s ev Hmode Hu Hsus Hso) as [Hsus' Hso'].
  split; [exact Hsus'|]. split; [exact Hso'|].
  now apply step_last_broadcast.
Qed.

Lemma last_broadcast_is_current_state_witness :
  last_broadcast_state
    (world (run [Request (env_calm 0) cmd_start;
                 Wake (env_obstacle 5000000)] System_init))
  = to_dict
      (robot_state
         (world (run [Request (env_calm 0) cmd_start;
                      Wake (env_obstacle 5000000)] System_init))).
Proof.
  assert (Hall : Forall event_succeeds
                   [Request (env_calm 0) cmd_start;
                    Wake (env_obstacle 5000000)]).
  { repeat constructor; cbn; discriminate. }
  assert (Hun : Forall stop_uninterrupted
                  [Request (env_calm 0) cmd_start;
                   Wake (env_obstacle 5000000)])
    by (repeat constructor).
  assert (Hw : writing (run [Request (env_calm 0) cmd_start;
                             Wake (env_obstacle 5000000)] System_init)
               = false)
    by (vm_compute; reflexivity).
  exact (proj1 (last_broadcast_is_current_state _ Hall Hun Hw)).
Defined.

(** ** Reading the state and the log *)

Lemma insert_desc_perm (x : CleaningLog.t) (l : list CleaningLog.t) :
  Permutation (insert_desc x l) (x :: l).
Proof.
  induction l as [|y rest IH]; simpl; [apply Permutation_refl|].
  destruct (CleaningLog.start_time y <? CleaningLog.start_time x).
  - apply Permutation_refl.
  - apply perm_trans with (y :: x :: rest).
    + now apply perm_skip.
    + apply perm_swap.
Qed.

Lemma sort_desc_perm (l : list CleaningLog.t) : Permutation (sort_desc l) l.
Proof.
  induction l as [|x rest IH]; simpl; [apply perm_nil|].
  apply perm_trans with (x :: sort_desc rest).
  - apply insert_desc_perm.
  - now apply perm_skip.
Qed.

Lemma insert_desc_sorted (x : CleaningLog.t) (l : list CleaningLog.t) :
  StronglySorted newer_or_equal l ->
  StronglySorted newer_or_equal (insert_desc x l).
Proof.
  induction l as [|y rest IH]; intros Hs; simpl.
  - constructor; constructor.
  - apply StronglySorted_inv in Hs. destruct Hs as [Hrest Hy].
    destruct (Z.ltb_spec (CleaningLog.start_time y) (CleaningLog.start_time x))
      as [Hlt|Hge].
    + constructor; [constructor; assumption|].
      constructor; [unfold newer_or_equal; lia|].
      eapply Forall_impl; [|exact Hy].
      unfold newer_or_equal. intros a Ha. lia.
    + constructor; [now apply IH|].
      eapply Permutation_Forall; [apply Permutation_sym, insert_desc_perm|].
      constructor; [exact Hge | exact Hy].
Qed.

Lemma sort_desc_sorted (l : list CleaningLog.t) :
  StronglySorted newer_or_equal (sort_desc l).
Proof.
  induction l as [|x rest IH]; simpl; [constructor|].
  now apply insert_desc_sorted.
Qed.

Lemma StronglySorted_app_inv (l1 l2 : list CleaningLog.t) :
  StronglySorted newer_or_equal (l1 ++ l2) ->
  StronglySorted newer_or_equal l1
  /\ forall a b, In a l1 -> In b l2 -> newer_or_equal a b.
Proof.
  induction l1 as [|x rest IH]; simpl; intros Hs.
  - split; [constructor | intros a b []].
  - apply StronglySorted_inv in Hs. destruct Hs as [Hrest Hx].
    destruct (IH Hrest) as [Hs1 Hcross]. split.
    + constructor; [exact Hs1|].
      apply Forall_app in Hx. tauto.
    + intros a b [<-|Ha] Hb.
      * rewrite Forall_forall in Hx. apply Hx. apply in_or_app. now right.
      * now apply Hcross.
Qed.

(** [get_cleaning_logs] never changes the world.  When the database
    answers, it returns at most 100 records (all of them when the log has
    no more than 100), the newest first by start time; together with the
    records left out they are exactly the log, and no record left out
    started later than a returned one.  When the database does not answer,
    the exception propagates. *)
Theorem get_cleaning_logs_newest_first (w : World) :
  get_cleaning_logs false w = (w, Raised StorageError)
  /\ exists page rest,
      get_cleaning_logs true w = (w, Returned page)
      /\ List.length page = Nat.min 100 (List.length (cleaning_logs w))
      /\ StronglySorted newer_or_equal page
      /\ Permutation (page ++ rest) (cleaning_logs w)
      /\ (forall a b, In a page -> In b rest -> newer_or_equal a b).
Proof.
  split; [reflexivity|].
  exists (firstn 100 (sort_desc (cleaning_logs w))),
         (skipn 100 (sort_desc (cleaning_logs w))).
  pose proof (sort_desc_sorted (cleaning_logs w)) as Hs.
  rewrite <- (firstn_skipn 100 (sort_desc (cleaning_logs w))) in Hs.
  apply StronglySorted_app_inv in Hs. destruct Hs as [Hs Hcross].
  split; [reflexivity|]. split; [|split; [exact Hs|split; [|exact Hcross]]].
  - rewrite length_firstn.
    now rewrite (Permutation_length (sort_desc_perm (cleaning_logs w))).
  - rewrite firstn_skipn. apply sort_desc_perm.
Qed.

(** ** Progress within a session *)

Lemma step_progress_monotone (s : System) (ev : Event) :
  keeps_session ev ->
  progress (robot_state (world s)) <= 100 ->
  progress (robot_state (world s))
  <= progress (robot_state (world (step s ev))).
Proof.
  intros Hev Hle.
  assert (Hreq : forall e c,
             command c <> "start" -> command c <> "stop" ->
             progress (robot_state (world s))
             <= progress (robot_state (world (step s (Request e c))))).
  { intros e c H1 H2. apply String.eqb_neq in H1, H2.
    unfold step. cbn [world]. unfold exec, send_robot_command.
    rewrite H1, H2. unfold_coroutine. cbn. split_branches; cbn; lia. }
  assert (Hwake : forall e,
             progress (robot_state (world s))
             <= progress (robot_state (world (step s (Wake e))))).
  { intros e. unfold step. destruct (sim s) as [| |log d|x] eqn:Hs.
    - unfold tick_before_sleep. unfold_coroutine. cbn.
      split_branches; cbn; lia.
    - rewrite (resume_iteration_in_grace_wait s e Hs). cbn [world].
      unfold tick_after_sleep. unfold_coroutine. cbn. lia.
    - destruct (resume_iteration_in_write s e log d Hs)
        as (_ & [(_ & _ & Hrs & _)|(_ & _ & Hw)]).
      + rewrite Hrs. lia.
      + rewrite Hw. lia.
    - unfold resume_iteration. rewrite Hs. lia. }
  destruct ev as [e c|e|e c|e i|e].
  - destruct Hev as [H1 H2]. now apply Hreq.
  - apply Hwake.
  - destruct Hev as [H1 H2].
    rewrite step_RequestUntilWrite_returns;
      [now apply Hreq | apply String.eqb_neq in H2; now rewrite H2].
  - contradiction.
  - destruct (sim s) eqn:Hs;
      try (rewrite step_WakeUntilWrite_sleeps;
           [apply Hwake | left; rewrite Hs; discriminate]).
    destruct (is_cleaning (robot_state (world s))
              && negb (Status_eqb (status (robot_state (world s))) paused)
              && negb (progress (robot_state (world s)) <? 100)) eqn:Hclosing.
    + destruct (step_WakeUntilWrite_closes s e Hs Hclosing) as (Hw & _).
      rewrite Hw. cbn. exact Hle.
    + rewrite step_WakeUntilWrite_sleeps; [apply Hwake | now right].
Qed.

(** Within a session the progress never goes back: from any state the
    process reaches, events other than [start] and [stop] requests (pauses,
    resumes, unknown commands, and the simulation task running through any
    of its sleeps) leave the progress where it was or higher. *)
Theorem progress_never_decreases_within_session
        (before after : list Event) :
  Forall keeps_session after ->
  let s := run before System_init in
  progress (robot_state (world s))
  <= progress (robot_state (world (run after s))).
Proof.
  intros Hall s.
  assert (Hinv : state_ok (robot_state (world s))).
  { apply run_state_ok. unfold state_ok. cbn. split; [lia|].
    split; [now exists 0|].
    split; intros H; [discriminate H | now elim H]. }
  clearbody s. revert s Hinv.
  induction after as [|ev rest IH]; intros s Hinv; [cbn; lia|].
  inversion Hall as [|? ? Hev Hrest]; subst.
  change (run (ev :: rest) s) with (run rest (step s ev)).
  pose proof (step_progress_monotone s ev Hev) as H1.
  pose proof (IH Hrest (step s ev) (step_state_ok s ev Hinv)) as H2.
  destruct Hinv as (Hr & _). lia.
Qed.

Lemma progress_never_decreases_within_session_witness :
  progress (robot_state (world (run [Request (env_calm 0) cmd_start]
                                    System_init)))
  <= progress
       (robot_state
          (world (run [Wake (env_obstacle 5000000)]
                      (run [Request (env_calm 0) cmd_start] System_init)))).
Proof.
  assert (Hall : Forall keeps_session [Wake (env_obstacle 5000000)])
    by (repeat constructor).
  exact (progress_never_decreases_within_session
           [Request (env_calm 0) cmd_start] [Wake (env_obstacle 5000000)]
           Hall).
Defined.

Lemma disconnect_removes_one_occurrence_witness :
  disconnect 9%nat [1%nat; 2%nat; 3%nat] = [1%nat; 2%nat; 3%nat].
Proof.
  exact (proj2 (disconnect_removes_one_occurrence
                  9%nat 9%nat [1%nat; 2%nat; 3%nat]) eq_refl).
Defined.

(** ** A start served during the write of a stop *)

Lemma stop_without_start_time (e : Env) (m : option string) (w : World) :
  is_cleaning (robot_state w) = true ->
  start_time (robot_state w) = None ->
  send_robot_command e (mkRobotCommand "stop" m) w
  = (put_robot (set_status idle (set_is_cleaning false (robot_state w))) w,
     Raised TypeError).
Proof.
  intros Hc Ht. unfold send_robot_command. unfold_coroutine. cbn.
  rewrite Hc. cbn. rewrite Ht. reflexivity.
Qed.

(** A [stop] of a cleaning robot suspends at its write with the robot
    already idle and not cleaning, so a [start] served there is accepted.
    When the write has returned and the [stop] has run to its end, its
    record is in the log, but the session the [start] opened has lost its
    start time and its mode while the robot is cleaning; the next [stop]
    then raises [TypeError] after setting the robot idle, and writes no
    record. *)
Theorem start_served_during_stop_write
        (e1 e2 e3 : Env) (m1 : option string) (md : string)
        (w : World) (t : SimTask) (t0 : datetime) (md0 : string) :
  is_cleaning (robot_state w) = true ->
  start_time (robot_state w) = Some t0 ->
  current_mode (robot_state w) = Some md0 ->
  insert_one_ok e3 = true ->
  let record := CleaningLog.mk (uuid4 e1) t0 (Some (utcnow e1))
                  (Some (Z.quot (utcnow e1 - t0) 1000000)) md0 interrupted
                  (progress (robot_state w)) in
  let s1 := step (mkSystem w t)
                 (RequestUntilWrite e1 (mkRobotCommand "stop" m1)) in
  let s2 := step s1 (Request e2 (mkRobotCommand "start" (Some md))) in
  let s3 := step s2 (WriteReturns e3 0) in
  suspended s1 = [record]
  /\ robot_state (world s2)
     = mkRobotState mopping 0 true (obstacle_detected (robot_state w))
                    (Some (utcnow e2)) (Some md)
                    (pause_reason (robot_state w))
  /\ suspended s3 = []
  /\ cleaning_logs (world s3) = cleaning_logs w ++ [record]
  /\ robot_state (world s3)
     = mkRobotState mopping 0 true (obstacle_detected (robot_state w))
                    None None (pause_reason (robot_state w))
  /\ forall e4 m4,
      send_robot_command e4 (mkRobotCommand "stop" m4) (world s3)
      = (put_robot
           (mkRobotState idle 0 false (obstacle_detected (robot_state w))
                         None None (pause_reason (robot_state w)))
           (world s3),
         Raised TypeError).
Proof.
  intros Hc Ht Hm Hdb record s1 s2 s3.
  assert (H1 : s1 = mkProcess
                      (put_robot (set_status idle
                                    (set_is_cleaning false (robot_state w))) w)
                      t [record]).
  { subst s1 record. unfold step, send_robot_command_until_write.
    unfold_coroutine. cbn. rewrite Hc. cbn. rewrite Ht. cbn. rewrite Hm.
    reflexivity. }
  assert (H2 : robot_state (world s2)
               = mkRobotState mopping 0 true
                   (obstacle_detected (robot_state w))
                   (Some (utcnow e2)) (Some md)
                   (pause_reason (robot_state w))
               /\ cleaning_logs (world s2) = cleaning_logs w
               /\ suspended s2 = [record]).
  { subst s2. rewrite H1. unfold step. cbn [world sim suspended]. unfold exec.
    rewrite start_world by reflexivity.
    rewrite broadcast_robot_state, broadcast_cleaning_logs.
    repeat split. }
  destruct H2 as (Hrs2 & Hlogs2 & Hsus2).
  assert (Hnth : nth_error (suspended s2) 0 = Some record)
    by now rewrite Hsus2.
  destruct (step_WriteReturns s2 e3 0 record Hnth)
    as (_ & Hsus3 & [(_ & Hrs3 & Hlogs3 & _)|(Hno & _)]);
    [|rewrite Hdb in Hno; discriminate Hno].
  fold s3 in Hsus3, Hrs3, Hlogs3.
  rewrite Hrs2 in Hrs3. rewrite Hlogs2 in Hlogs3. rewrite Hsus2 in Hsus3.
  split; [now rewrite H1|]. split; [exact Hrs2|]. split; [exact Hsus3|].
  split; [exact Hlogs3|]. split; [exact Hrs3|].
  clearbody s3. intros e4 m4.
  rewrite stop_without_start_time by (rewrite Hrs3; reflexivity).
  rewrite Hrs3. reflexivity.
Qed.

Lemma start_served_during_stop_write_witness :
  robot_state
    (world (step (step (step (mkSystem world_started at_loop_head)
                             (RequestUntilWrite (env_calm 1000000)
                                (mkRobotCommand "stop" default_mode)))
                       (Request (env_calm 2000000)
                          (mkRobotCommand "start" (Some "mop_only"))))
                 (WriteReturns (env_calm 3000000) 0)))
  = mkRobotState mopping 0 true false None None None.
Proof.
  destruct (start_served_during_stop_write
              (env_calm 1000000) (env_calm 2000000) (env_calm 3000000)
              default_mode "mop_only" world_started at_loop_head
              0 "full_clean" eq_refl eq_refl eq_refl eq_refl)
    as (_ & _ & _ & _ & Hrs & _).
  exact Hrs.
Defined.
